(** * The leaderboard renderer of [static/js/leaderboard.js]

    A shallow embedding of the class [LeaderboardRenderer] and of the part of
    the browser it talks to: JSON values and their relational comparison,
    [Array.prototype.sort], arrays as heap objects, the elements of the
    document that are looked up by id, the console and the network.

    Methods of the class are computations in a state-and-exception monad over
    a [World]; every definition [loadData], [handleSort], [createHeaderRow],
    [getSortedRows], [createTableBody], [renderTable], [init] follows the
    method of the same name statement by statement. *)

From Stdlib Require Import QArith Ascii String DecimalString OrderedTypeEx.
From stdpp Require Import base option list gmap strings sorting.

Set Warnings "-register-all".

Local Open Scope Z_scope.
Local Open Scope string_scope.
Local Open Scope list_scope.

(** ** JavaScript values held by a row

    A row is an object parsed from JSON whose properties are numbers or
    strings (section 3 of the specification); reading a property that
    neither the object nor its prototype has gives [undefined].  A JSON
    number is an IEEE double other than NaN: a finite one compares as the
    rational it denotes, so finite numbers are carried as [Q].  Strings are compared code unit by code
    unit; the characters of [string] are the code units up to 255. *)

Inductive num : Type :=
  | NegInfinity
  | Finite (q : Q)
  | PosInfinity.

Inductive value : Type :=
  | VUndefined
  | VNumber (n : num)
  | VString (s : string).

(** [x < y] on numbers that are not NaN. *)
Definition num_ltb (x y : num) : bool :=
  match x, y with
  | NegInfinity, NegInfinity => false
  | NegInfinity, _ => true
  | Finite _, NegInfinity => false
  | Finite p, Finite q => match (p ?= q)%Q with Lt => true | _ => false end
  | Finite _, PosInfinity => true
  | PosInfinity, _ => false
  end.

(** A row object: its own properties, by name. *)
Abbreviation Row := (gmap string value).

(** What a row inherits.  An object parsed from JSON has [Object.prototype]
    as its prototype, so reading a property it does not have itself finds
    the built-in functions [constructor], [toString], ... and the accessor
    [__proto__], which answers [Object.prototype].  The program does two
    things with the value of a property of a row: it compares it with [<]
    and [>], and it assigns it to [textContent].  Both convert an object to
    a primitive first, and for these objects that primitive is the string
    their [toString] gives; an inherited property is therefore carried as
    that string.  The text of a built-in function is written as the
    browsers print it (they differ in white space only). *)
Definition native_function (name : string) : string :=
  "function " +:+ name +:+ "() { [native code] }".

Definition Object_prototype (k : string) : option string :=
  if decide (k = "constructor") then Some (native_function "Object")
  else if decide (k = "__proto__") then Some "[object Object]"
  else if decide (k ∈ ["hasOwnProperty"; "isPrototypeOf"; "propertyIsEnumerable";
                       "toLocaleString"; "toString"; "valueOf";
                       "__defineGetter__"; "__defineSetter__";
                       "__lookupGetter__"; "__lookupSetter__"])
  then Some (native_function k)
  else None.

(** [row[k]]: the property of the row itself, else the inherited one, else
    [undefined]. *)
Definition prop (row : Row) (k : string) : value :=
  match row !! k with
  | Some v => v
  | None =>
      match Object_prototype k with
      | Some text => VString text
      | None => VUndefined
      end
  end.

(** ** Errors that can be thrown *)

Inductive JsError : Type :=
  | Error (message : string)
  | TypeError (message : string)
  | SyntaxError (message : string).

(** ** Sort state *)

Inductive Direction : Type := asc | desc.

#[global] Instance Direction_eq_dec : EqDecision Direction.
Proof. solve_decision. Defined.

Module SortConfig.
Record t : Type := make { key : string; direction : Direction }.
End SortConfig.

(** ** Array.prototype.sort

    The comparator answers a number; the sort moves an element behind another
    one only when the comparator says "greater" (a positive answer) and keeps
    the order of elements it reports equal, as ECMAScript requires of every
    engine since ES2019.  For a consistent comparator this determines the
    result; the model is the insertion sort that realises it.  For a
    comparator that is not consistent the standard leaves the order to the
    engine, and the insertion sort is then one engine among others. *)

Section ArraySort.
Context {A : Type} (comparefn : A → A → Z).

Fixpoint sort_insert (x : A) (sorted : list A) : list A :=
  match sorted with
  | [] => [x]
  | y :: rest =>
      if (comparefn x y <=? 0)%Z then x :: y :: rest
      else y :: sort_insert x rest
  end.

Fixpoint Array_sort (items : list A) : list A :=
  match items with
  | [] => []
  | x :: rest => sort_insert x (Array_sort rest)
  end.

(** [a] may stand before [b] in a sorted array. *)
Definition in_order (a b : A) : Prop := (comparefn a b <= 0)%Z.

End ArraySort.

(** ** The data set *)

Module Column.
Record t : Type :=
  make { id : string; label : string; sortable : bool; emphasized : bool }.
End Column.

(** The JSON document served at [dataUrl], as [JSON.parse] reads it, when
    it is a data set of the shape section 3 of the specification gives: a
    title, an array of columns and an array of rows.  A body that parses to
    some other JSON value is not represented; what is stated of a parsed
    body is stated of a data set of this shape. *)
Module Payload.
Record t : Type :=
  make { title : string; columns : list Column.t; rows : list Row }.
End Payload.

(** The object built from it.  Its [rows] is an array object: a reference
    into the array store of the [World], because [Array.prototype.sort]
    sorts the array it is called on in place. *)
Module Dataset.
Record t : Type :=
  make { title : string; columns : list Column.t; rows : nat }.
End Dataset.

(** ** The network *)

(** The [body] of a response is given by what [response.json()] makes of
    it: the error of the parse, or the data set. *)
Module Response.
Record t : Type :=
  make { status : N; statusText : string; body : JsError + Payload.t }.

(** [response.ok]: the status is in the range 200-299. *)
Definition ok (r : t) : bool := ((200 <=? status r) && (status r <=? 299))%N.
End Response.

(** What [await fetch(url)] comes back with. *)
Inductive FetchOutcome : Type :=
  | Rejected (e : JsError)
  | Resolved (r : Response.t).

(** ** The document *)

(** The one kind of listener the program installs:
    [() => this.handleSort(column.id)] on the [click] of a header cell. *)
Inductive Listener : Type :=
  | ClickHandleSort (key : string).

Inductive Node : Type :=
  | TextNode (data : string)
  | Element (tagName : string) (className : string)
      (listeners : list Listener) (childNodes : list Node).

Definition createElement (tagName : string) : Node := Element tagName "" [] [].

Definition childNodes_of (n : Node) : list Node :=
  match n with
  | TextNode _ => []
  | Element _ _ _ children => children
  end.

(** The getter of [textContent]: the text of the descendants, in order. *)
Fixpoint textContent (n : Node) : string :=
  match n with
  | TextNode s => s
  | Element _ _ _ children =>
      (fix go (l : list Node) : string :=
         match l with
         | [] => ""
         | c :: l' => textContent c +:+ go l'
         end) children
  end.

(** The setter of [textContent] with a string: the children are replaced by
    one text node, or by nothing when the string is empty. *)
Definition set_textContent (s : string) (n : Node) : Node :=
  match n with
  | TextNode _ => TextNode s
  | Element tag cls ls _ =>
      Element tag cls ls (if decide (s = "") then [] else [TextNode s])
  end.

(** [el.innerHTML = ''] *)
Definition clear_innerHTML (n : Node) : Node :=
  match n with
  | TextNode s => TextNode s
  | Element tag cls ls _ => Element tag cls ls []
  end.

(** [el.appendChild(child)]; appending a document fragment appends its
    children, so both take the list of nodes that arrive. *)
Definition appendChild (new : list Node) (n : Node) : Node :=
  match n with
  | TextNode s => TextNode s
  | Element tag cls ls children => Element tag cls ls (children ++ new)
  end.

Definition addEventListener (l : Listener) (n : Node) : Node :=
  match n with
  | TextNode s => TextNode s
  | Element tag cls ls children => Element tag cls (ls ++ [l]) children
  end.

(** The tokens of a class attribute: its runs of characters between spaces
    (the class names of this program hold no other white space). *)
Fixpoint class_tokens_from (current : string) (s : string) : list string :=
  match s with
  | EmptyString => if decide (current = "") then [] else [current]
  | String c rest =>
      if decide (c = " "%char)
      then (if decide (current = "") then class_tokens_from "" rest
            else current :: class_tokens_from "" rest)
      else class_tokens_from (current +:+ String c "") rest
  end.

Definition class_tokens (className : string) : list string :=
  remove_dups (class_tokens_from "" className).

(** [el.classList.add(token)]: the token joins the ordered set of tokens
    unless it is there, and the attribute is written back as the tokens
    separated by single spaces. *)
Definition classList_add (token : string) (n : Node) : Node :=
  match n with
  | TextNode s => TextNode s
  | Element tag cls ls children =>
      let tokens := class_tokens cls in
      let tokens := if decide (token ∈ tokens) then tokens else tokens ++ [token] in
      Element tag (String.concat " " tokens) ls children
  end.

(** [el.className += suffix] *)
Definition className_append (suffix : string) (n : Node) : Node :=
  match n with
  | TextNode s => TextNode s
  | Element tag cls ls children => Element tag (cls +:+ suffix) ls children
  end.

(** ** The console *)

Inductive LogEntry : Type :=
  | ConsoleError (message : string) (detail : option JsError).

(** ** The renderer and its world *)

Module Config.
Record t : Type :=
  make { tableId : string; headId : string; bodyId : string;
         titleId : string; dataUrl : string }.
End Config.

Record LeaderboardRenderer : Type := {
  tableId : string;
  headId : string;
  bodyId : string;
  titleId : string;
  dataUrl : string;
  data : option Dataset.t;
  sortConfig : SortConfig.t
}.

Definition constructor (config : Config.t) : LeaderboardRenderer :=
  {| tableId := Config.tableId config;
     headId := Config.headId config;
     bodyId := Config.bodyId config;
     titleId := Config.titleId config;
     dataUrl := Config.dataUrl config;
     data := None;
     sortConfig := SortConfig.make "average" desc |}.

(** Everything a method can read or change: the instance ([this]), the
    array objects, the elements of the document that carry an id, the
    console, and what the server answers for each URL.

    The document is kept as the elements [getElementById] can find, each
    with the subtree below it.  A write to one element is a write to its
    own subtree; that an element with an id may lie inside another one,
    and leaves the document when that one is emptied, is not represented.
    The statements about the document are therefore put so that they hold
    of nested elements too: they speak of the element that was written
    to, and of another element only as far as it is still found in the
    document afterwards. *)
Record World : Type := {
  this : LeaderboardRenderer;
  arrays : list (list Row);
  document : gmap string Node;
  console : list LogEntry;
  network : string → FetchOutcome
}.

Definition set_data (d : option Dataset.t) (w : World) : World :=
  {| this := {| tableId := tableId (this w); headId := headId (this w);
                bodyId := bodyId (this w); titleId := titleId (this w);
                dataUrl := dataUrl (this w); data := d;
                sortConfig := sortConfig (this w) |};
     arrays := arrays w; document := document w; console := console w;
     network := network w |}.

Definition set_sortConfig (sc : SortConfig.t) (w : World) : World :=
  {| this := {| tableId := tableId (this w); headId := headId (this w);
                bodyId := bodyId (this w); titleId := titleId (this w);
                dataUrl := dataUrl (this w); data := data (this w);
                sortConfig := sc |};
     arrays := arrays w; document := document w; console := console w;
     network := network w |}.

Definition set_arrays (a : list (list Row)) (w : World) : World :=
  {| this := this w; arrays := a; document := document w;
     console := console w; network := network w |}.

Definition set_document (d : gmap string Node) (w : World) : World :=
  {| this := this w; arrays := arrays w; document := d;
     console := console w; network := network w |}.

Definition set_console (c : list LogEntry) (w : World) : World :=
  {| this := this w; arrays := arrays w; document := document w;
     console := c; network := network w |}.

(** ** Computations: state and exceptions *)

Inductive Completion (A : Type) : Type :=
  | Normal (a : A)
  | Throw (e : JsError).
Arguments Normal {A} a.
Arguments Throw {A} e.

Definition M (A : Type) : Type := World → Completion A * World.

Definition ret {A : Type} (a : A) : M A := λ w, (Normal a, w).

Definition throw {A : Type} (e : JsError) : M A := λ w, (Throw e, w).

Definition bind {A B : Type} (m : M A) (k : A → M B) : M B :=
  λ w, match m w with
       | (Normal a, w') => k a w'
       | (Throw e, w') => (Throw e, w')
       end.

(** [try { body } catch (error) { handler }] *)
Definition try_catch {A : Type} (body : M A) (handler : JsError → M A) : M A :=
  λ w, match body w with
       | (Normal a, w') => (Normal a, w')
       | (Throw e, w') => handler e w'
       end.

Definition gets {A : Type} (f : World → A) : M A := λ w, (Normal (f w), w).

Definition modify (f : World → World) : M unit := λ w, (Normal tt, f w).

Notation "'let*' x ':=' m 'in' k" := (bind m (λ x, k))
  (at level 10, x name, m at level 100, k at level 200).
Notation "'run' m 'then' k" := (bind m (λ _, k))
  (at level 10, m at level 100, k at level 200).

(** Each element of a list in turn, collecting what the callback builds. *)
Fixpoint forEach {A B : Type} (callback : A → M B) (items : list A) : M (list B) :=
  match items with
  | [] => ret []
  | x :: rest =>
      let* y := callback x in
      let* ys := forEach callback rest in
      ret (y :: ys)
  end.

(** A field of [this]. *)
Definition this_ {A : Type} (field : LeaderboardRenderer → A) : M A :=
  gets (λ w, field (this w)).

(** [this.data.<property>]: reading a property of [null] is a TypeError. *)
Definition this_data : M Dataset.t :=
  let* d := this_ data in
  match d with
  | Some d => ret d
  | None => throw (TypeError "Cannot read properties of null")
  end.

(** *** Arrays *)

(** The elements of an array object ([undefined] is not iterable). *)
Definition Array_items (a : nat) : M (list Row) :=
  let* store := gets arrays in
  match store !! a with
  | Some items => ret items
  | None => throw (TypeError "undefined is not iterable")
  end.

(** A new array object holding [items]. *)
Definition Array_new (items : list Row) : M nat :=
  let* store := gets arrays in
  run modify (set_arrays (store ++ [items])) then
  ret (length store).

(** [[...a]] *)
Definition Array_spread (a : nat) : M nat :=
  let* items := Array_items a in
  Array_new items.

(** [a.sort(comparefn)]: sorts [a] in place and answers [a]. *)
Definition Array_prototype_sort (a : nat) (comparefn : Row → Row → Z) : M nat :=
  let* items := Array_items a in
  let* store := gets arrays in
  run modify (set_arrays (<[a := Array_sort comparefn items]> store)) then
  ret a.

(** *** Console, document, network *)

Definition console_error (message : string) (detail : option JsError) : M unit :=
  let* c := gets console in
  modify (set_console (c ++ [ConsoleError message detail])).

(** [document.getElementById(id)]: the element, named by its id, or null. *)
Definition getElementById (id : string) : M (option string) :=
  let* doc := gets document in
  ret (match doc !! id with Some _ => Some id | None => None end).

(** A change of the element [el] in place. *)
Definition update_element (el : string) (f : Node → Node) : M unit :=
  let* doc := gets document in
  modify (set_document (alter f el doc)).

(** The target of a property assignment [target.property = ...]. *)
Definition assignable (target : option string) : M string :=
  match target with
  | Some el => ret el
  | None => throw (TypeError "Cannot set properties of null")
  end.

(** [await fetch(url)] *)
Definition fetch (url : string) : M Response.t :=
  let* net := gets network in
  match net url with
  | Rejected e => throw e
  | Resolved r => ret r
  end.

(** [await response.json()]: the parse error, or the object graph of the
    document, its array of rows newly built. *)
Definition Response_json (response : Response.t) : M Dataset.t :=
  match Response.body response with
  | inl e => throw e
  | inr p =>
      let* rows := Array_new (Payload.rows p) in
      ret (Dataset.make (Payload.title p) (Payload.columns p) rows)
  end.

(** The decimal digits of a status code, as a template literal prints it. *)
Definition status_digits (status : N) : string :=
  NilZero.string_of_uint (N.to_uint status).

(** [haystack.includes(needle)] *)
Definition includes (haystack needle : string) : bool :=
  match String.index 0 needle haystack with
  | Some _ => true
  | None => false
  end.

(** ** A page, a server and an engine to run the renderer on

    The configuration is the one the page-ready handler passes; the rest is
    sample data for the demonstrations at the end. *)

Definition leaderboard_config : Config.t :=
  Config.make "leaderboard" "table-head" "table-body" "table-title"
    "static/json/leaderboard-data.json".

Definition sample_page : gmap string Node :=
  {[ "table-title" := createElement "h2";
     "table-head" := createElement "thead";
     "table-body" := createElement "tbody" ]}.

Definition page_without_title : gmap string Node :=
  {[ "table-head" := createElement "thead";
     "table-body" := createElement "tbody" ]}.

Definition sample_columns : list Column.t :=
  [Column.make "method" "Method" false false;
   Column.make "average" "Average" true true].

Definition scored (method : string) (average : Q) : Row :=
  {[ "method" := VString method; "average" := VNumber (Finite average) ]}.

Definition unscored (method : string) : Row :=
  {[ "method" := VString method ]}.

Definition sample_payload : Payload.t :=
  Payload.make "Model Leaderboard" sample_columns
    [scored "ModelA" (2 # 1); scored "ModelB" (3 # 1); scored "ModelC" (1 # 1)].

Definition gappy_payload : Payload.t :=
  Payload.make "Model Leaderboard" sample_columns
    [scored "ModelA" (2 # 1); unscored "ModelB"; scored "ModelC" (1 # 1)].

(** A score that is not available is often served as text. *)
Definition not_available (method : string) : Row :=
  {[ "method" := VString method; "average" := VString "N/A" ]}.

Definition mixed_payload : Payload.t :=
  Payload.make "Model Leaderboard" sample_columns
    [scored "ModelA" (1 # 1); not_available "ModelB"; scored "ModelC" (2 # 1)].

(** A data set with a column whose id is the name of a property every
    object inherits. *)
Definition inherited_payload : Payload.t :=
  Payload.make "Model Leaderboard"
    [Column.make "method" "Method" false false;
     Column.make "constructor" "Constructor" false false]
    [unscored "ModelA"].

Definition serves (p : Payload.t) : string → FetchOutcome :=
  λ _, Resolved (Response.make 200 "OK" (inr p)).

Definition not_found : string → FetchOutcome :=
  λ _, Resolved (Response.make 404 "Not Found"
                   (inl (SyntaxError "Unexpected token < in JSON"))).

(** The page before [init]. *)
Definition fresh_world (doc : gmap string Node) (net : string → FetchOutcome)
  : World :=
  {| this := constructor leaderboard_config; arrays := []; document := doc;
     console := []; network := net |}.

(** The page once [p] is loaded, with a sort state of one's choosing. *)
Definition loaded_world (p : Payload.t) (sc : SortConfig.t) : World :=
  set_sortConfig sc
    (set_data (Some (Dataset.make (Payload.title p) (Payload.columns p) 0))
       (set_arrays [Payload.rows p] (fresh_world sample_page (serves p)))).

(** The engine of the demonstrations.  The one string they convert to a
    number is "N/A", which is no numeric literal and so converts to NaN;
    the text a number prints as is never looked at. *)
Definition sample_StringToNumber : string → option num := λ _, None.
Definition sample_NumberToString : num → string := λ _, "0".

(** A column of numbers, or a column of strings: the rows whose values at
    [k] all have the same one of the two kinds. *)
Definition is_number (v : value) : bool :=
  match v with VNumber _ => true | _ => false end.

Definition is_string (v : value) : bool :=
  match v with VString _ => true | _ => false end.

Definition same_kind_at (k : string) (rows : list Row) : bool :=
  forallb (λ row, is_number (prop row k)) rows
  || forallb (λ row, is_string (prop row k)) rows.

(** ** Vocabulary of the statements *)

(** [m] relates every world it starts in to the world it ends in by [P]. *)
Definition keeps (P : World → World → Prop) {A : Type} (m : M A) : Prop :=
  ∀ w, P w (m w).2.

Definition same_this (w w' : World) : Prop := this w' = this w.

(** From a world in [pre], [m] raises nothing and answers a value and a
    world in [post]. *)
Definition returns {A : Type} (pre : World → Prop) (m : M A)
    (post : A → World → Prop) : Prop :=
  ∀ w, pre w → ∃ a w', m w = (Normal a, w') ∧ post a w'.

(** The data set [d] is loaded and its array of rows holds [rows]. *)
Definition loaded (d : Dataset.t) (rows : list Row) (w : World) : Prop :=
  data (this w) = Some d ∧ arrays w !! Dataset.rows d = Some rows.

(** The value of the row at [k] is of the kind [kind] tests for. *)
Definition of_kind (kind : value → bool) (k : string) (row : Row) : Prop :=
  kind (prop row k) = true.

(** The world after the [catch] block has logged [error] and, when there is
    a title element, written to it. *)
Definition after_catch (error : JsError) (w : World) : World :=
  let logged :=
    set_console
      (console w ++ [ConsoleError "Error loading leaderboard data:" (Some error)]) w in
  match document w !! titleId (this w) with
  | Some _ =>
      set_document
        (alter (set_textContent "Error loading leaderboard data")
           (titleId (this w)) (document w)) logged
  | None => logged
  end.

(** The world after a successful load of the document [p]. *)
Definition after_load (p : Payload.t) (w : World) : World :=
  set_data
    (Some (Dataset.make (Payload.title p) (Payload.columns p) (length (arrays w))))
    (set_arrays (arrays w ++ [Payload.rows p]) w).

(** ** The class [LeaderboardRenderer] *)

Section Leaderboard.

(** Two conversions of the engine are taken as given: ToNumber on a string
    ([None] is NaN) and ToString on a number. *)
Variable StringToNumber : string → option num.
Variable NumberToString : num → string.

(** *** Relational comparison *)

Definition ToNumber (v : value) : option num :=
  match v with
  | VUndefined => None
  | VNumber n => Some n
  | VString s => StringToNumber s
  end.

(** The abstract relational comparison [x < y] of two primitives: strings
    compare by code units, anything else as numbers, and the answer is
    undefined ([None]) when a side is NaN. *)
Definition IsLessThan (x y : value) : option bool :=
  match x, y with
  | VString sx, VString sy => Some (String.ltb sx sy)
  | _, _ =>
      match ToNumber x, ToNumber y with
      | Some nx, Some ny => Some (num_ltb nx ny)
      | _, _ => None
      end
  end.

(** [x < y], [x > y], [x <= y], [x >= y] *)
Definition js_lt (x y : value) : bool :=
  match IsLessThan x y with Some true => true | _ => false end.
Definition js_gt (x y : value) : bool :=
  match IsLessThan y x with Some true => true | _ => false end.
Definition js_le (x y : value) : bool :=
  match IsLessThan y x with Some false => true | _ => false end.
Definition js_ge (x y : value) : bool :=
  match IsLessThan x y with Some false => true | _ => false end.

(** The value assigned by [el.textContent = v]: the attribute is a nullable
    string, so [undefined] becomes null, which the setter takes for the
    empty string; another value is converted with ToString. *)
Definition text_of_value (v : value) : string :=
  match v with
  | VUndefined => ""
  | VNumber n => NumberToString n
  | VString s => s
  end.

(** [el.textContent = v] on the element [el]. *)
Definition assign_textContent (el : string) (v : value) : M unit :=
  update_element el (set_textContent (text_of_value v)).

(** *** loadData *)

(** The [catch] block. *)
Definition loadData_catch (error : JsError) : M Dataset.t :=
  run console_error "Error loading leaderboard data:" (Some error) then
  let* id := this_ titleId in
  let* target := getElementById id in
  let* el := assignable target in
  run assign_textContent el (VString "Error loading leaderboard data") then
  throw error.

(** The message of the error thrown for a response that is not ok. *)
Definition failed_to_load (response : Response.t) : string :=
  "Failed to load data: " +:+ status_digits (Response.status response)
  +:+ " " +:+ Response.statusText response.

Definition loadData : M Dataset.t :=
  try_catch
    (let* url := this_ dataUrl in
     let* response := fetch url in
     run (if negb (Response.ok response)
          then throw (Error (failed_to_load response))
          else ret tt) then
     let* parsed := Response_json response in
     run modify (set_data (Some parsed)) then
     this_data)
    loadData_catch.

(** *** createHeaderRow *)

Definition createHeaderCell (sc : SortConfig.t) (column : Column.t) : Node :=
  let th := createElement "th" in
  let th := set_textContent (text_of_value (VString (Column.label column))) th in
  let th :=
    if Column.sortable column then
      let th := classList_add "sortable" th in
      let th := addEventListener (ClickHandleSort (Column.id column)) th in
      if decide (SortConfig.key sc = Column.id column) then
        className_append
          (match SortConfig.direction sc with
           | asc => " sorted-asc"
           | desc => " sorted-desc"
           end) th
      else th
    else th in
  let th :=
    if Column.emphasized column then classList_add "average-column" th else th in
  th.

Definition createHeaderRow : M Node :=
  let headerRow := createElement "tr" in
  let* d := this_data in
  let* cells :=
    forEach (λ column,
      let* sc := this_ sortConfig in
      ret (createHeaderCell sc column)) (Dataset.columns d) in
  ret (appendChild cells headerRow).

(** *** getSortedRows *)

(** The comparator handed to [sort]. *)
Definition compareRows (sc : SortConfig.t) (a b : Row) : Z :=
  if js_lt (prop a (SortConfig.key sc)) (prop b (SortConfig.key sc)) then
    match SortConfig.direction sc with asc => -1 | desc => 1 end
  else if js_gt (prop a (SortConfig.key sc)) (prop b (SortConfig.key sc)) then
    match SortConfig.direction sc with asc => 1 | desc => -1 end
  else 0.

Definition getSortedRows : M nat :=
  let* d := this_data in
  let* copy := Array_spread (Dataset.rows d) in
  let* sc := this_ sortConfig in
  Array_prototype_sort copy (compareRows sc).

(** *** createTableBody *)

Definition createBodyCell (row : Row) (column : Column.t) : Node :=
  let td := createElement "td" in
  let td := set_textContent (text_of_value (prop row (Column.id column))) td in
  let td :=
    if decide (Column.id column = "method") then classList_add "method-column" td
    else td in
  let td :=
    if decide (Column.id column = "average") then classList_add "average-column" td
    else td in
  td.

(** The children of the fragment that is answered. *)
Definition createTableBody (sortedRows : nat) : M (list Node) :=
  let* rows := Array_items sortedRows in
  forEach (λ row,
    let tr := createElement "tr" in
    let* d := this_data in
    let* cells := forEach (λ column, ret (createBodyCell row column))
                    (Dataset.columns d) in
    ret (appendChild cells tr)) rows.

(** *** renderTable *)

Definition renderTable : M unit :=
  let* d := this_ data in
  match d with
  | None => console_error "No data available to render table" None
  | Some _ =>
      let* id := this_ titleId in
      let* titleElement := getElementById id in
      run (match titleElement with
           | Some el =>
               let* d := this_data in
               assign_textContent el (VString (Dataset.title d))
           | None => ret tt
           end) then
      let* id := this_ headId in
      let* tableHead := getElementById id in
      run (match tableHead with
           | Some el =>
               run update_element el clear_innerHTML then
               let* headerRow := createHeaderRow in
               update_element el (appendChild [headerRow])
           | None => ret tt
           end) then
      let* sortedRows := getSortedRows in
      let* id := this_ bodyId in
      let* tableBody := getElementById id in
      match tableBody with
      | Some el =>
          run update_element el clear_innerHTML then
          let* fragment := createTableBody sortedRows in
          update_element el (appendChild fragment)
      | None => ret tt
      end
  end.

(** *** handleSort *)

Definition handleSort (key : string) : M unit :=
  let* sc := this_ sortConfig in
  let direction :=
    if decide (SortConfig.key sc = key ∧ SortConfig.direction sc = asc)
    then desc else asc in
  run modify (set_sortConfig (SortConfig.make key direction)) then
  renderTable.

(** *** init *)

Definition init : M bool :=
  try_catch
    (run loadData then
     run renderTable then
     ret true)
    (λ error,
     run console_error "Failed to initialize leaderboard:" (Some error) then
     ret false).

(** *** What a render leaves in the document *)

(** [l] is sorted on the value at the key of [sc], in the direction of
    [sc]: of two rows, the one that stands first is [<=] the other under
    "asc" and [>=] it under "desc". *)
Definition sorted_on (sc : SortConfig.t) (l : list Row) : Prop :=
  ∀ i j a b, (i < j)%nat → l !! i = Some a → l !! j = Some b →
    match SortConfig.direction sc with
    | asc => js_le (prop a (SortConfig.key sc)) (prop b (SortConfig.key sc)) = true
    | desc => js_ge (prop a (SortConfig.key sc)) (prop b (SortConfig.key sc)) = true
    end.

(** The header row [createHeaderRow] builds for [d] under the sort state
    [sc], and the row [createTableBody] builds for one row of data. *)
Definition headerRow_of (d : Dataset.t) (sc : SortConfig.t) : Node :=
  appendChild (map (createHeaderCell sc) (Dataset.columns d)) (createElement "tr").

Definition bodyRow_of (d : Dataset.t) (row : Row) : Node :=
  appendChild (map (createBodyCell row) (Dataset.columns d)) (createElement "tr").

(** [el.innerHTML = ''] followed by [el.appendChild(...)]. *)
Definition replace_children (new : list Node) (n : Node) : Node :=
  appendChild new (clear_innerHTML n).

(** The document after [renderTable()] has written [d], whose rows are
    [rows], under the sort state [sc], for the renderer [r]. *)
Definition rendered (d : Dataset.t) (sc : SortConfig.t) (rows : list Row)
    (r : LeaderboardRenderer) (doc : gmap string Node) : gmap string Node :=
  alter (replace_children (map (bodyRow_of d) (Array_sort (compareRows sc) rows)))
    (bodyId r)
    (alter (replace_children [headerRow_of d sc]) (headId r)
       (alter (set_textContent (Dataset.title d)) (titleId r) doc)).

(** What [renderTable()] does to the element with the id [i]. *)
Definition render_node (d : Dataset.t) (sc : SortConfig.t) (rows : list Row)
    (r : LeaderboardRenderer) (i : string) (n : Node) : Node :=
  let n := if decide (titleId r = i) then set_textContent (Dataset.title d) n
           else n in
  let n := if decide (headId r = i) then replace_children [headerRow_of d sc] n
           else n in
  if decide (bodyId r = i)
  then replace_children (map (bodyRow_of d) (Array_sort (compareRows sc) rows)) n
  else n.

Definition className_of (n : Node) : string :=
  match n with
  | TextNode _ => ""
  | Element _ cls _ _ => cls
  end.

Definition listeners_of (n : Node) : list Listener :=
  match n with
  | TextNode _ => []
  | Element _ _ ls _ => ls
  end.

(** *** The page-ready handler *)

(** A line of the console: an error, or a message of [console.log]. *)
Inductive ConsoleLine : Type :=
  | ErrorLine (entry : LogEntry)
  | LogLine (message : string).

(** The listener of [DOMContentLoaded], run in the world [w0] of the page.
    It builds its own renderer from the hard-coded configuration, awaits
    [init()] and logs the outcome.  It answers the lines the console holds
    afterwards (the errors logged so far, then its own line) and the world
    it leaves. *)
Definition DOMContentLoaded (w0 : World) : list ConsoleLine * World :=
  let leaderboard := constructor leaderboard_config in
  let w := {| this := leaderboard; arrays := arrays w0; document := document w0;
              console := console w0; network := network w0 |} in
  match init w with
  | (Normal _, w') =>
      (map ErrorLine (console w')
       ++ [LogLine "Leaderboard initialized successfully"], w')
  | (Throw error, w') =>
      (map ErrorLine
         (console w'
          ++ [ConsoleError "Leaderboard initialization failed:" (Some error)]),
       w')
  end.

(** * Facts *)

(** ** The sort *)

Section ArraySortFacts.
Context {A : Type} (comparefn : A → A → Z).

Lemma sort_insert_Permutation x l : sort_insert comparefn x l ≡ₚ x :: l.
Proof.
  induction l as [|y l IH]; simpl; [done|].
  destruct (comparefn x y <=? 0)%Z; [done|].
  rewrite IH. apply Permutation_swap.
Qed.

Lemma Array_sort_Permutation l : Array_sort comparefn l ≡ₚ l.
Proof.
  induction l as [|x l IH]; simpl; [done|].
  by rewrite sort_insert_Permutation, IH.
Qed.

(** Sortedness needs the comparator to be consistent on the elements that
    are actually sorted: [dom] collects them. *)
Variable dom : A → Prop.
Hypothesis total :
  ∀ a b, dom a → dom b → in_order comparefn a b ∨ in_order comparefn b a.
Hypothesis trans :
  ∀ a b c, dom a → dom b → dom c →
    in_order comparefn a b → in_order comparefn b c → in_order comparefn a c.

Lemma sort_insert_sorted x l :
  dom x → Forall dom l →
  StronglySorted (in_order comparefn) l →
  StronglySorted (in_order comparefn) (sort_insert comparefn x l).
Proof.
  intros Hx Hl Hs. induction Hs as [|y l Hs IH Hy]; simpl.
  - repeat constructor.
  - apply Forall_cons in Hl as [Hdy Hl].
    destruct (comparefn x y <=? 0)%Z eqn:E.
    + apply Z.leb_le in E. constructor; [by constructor|].
      constructor; [exact E|].
      rewrite Forall_forall in Hy, Hl |- *. intros z Hz.
      apply (trans x y z); auto.
    + apply Z.leb_gt in E. constructor; [by apply IH|].
      rewrite sort_insert_Permutation. constructor; [|exact Hy].
      destruct (total x y Hx Hdy) as [H|H]; [unfold in_order in H; lia|exact H].
Qed.

Lemma Array_sort_sorted l :
  Forall dom l → StronglySorted (in_order comparefn) (Array_sort comparefn l).
Proof.
  induction l as [|x l IH]; simpl; intros Hl; [constructor|].
  apply Forall_cons in Hl as [Hx Hl].
  apply sort_insert_sorted; auto.
  by rewrite Array_sort_Permutation.
Qed.

(** An array that is in order already is left as it is. *)
Lemma Array_sort_in_order l :
  StronglySorted (in_order comparefn) l → Array_sort comparefn l = l.
Proof.
  induction 1 as [|x l Hs IH Hx]; simpl; [done|]. rewrite IH.
  destruct Hx as [|y l Hxy _]; simpl; [done|].
  unfold in_order in Hxy. by rewrite (proj2 (Z.leb_le _ _) Hxy).
Qed.
End ArraySortFacts.

(** ** What a computation leaves alone *)

Section Frame.
Variable P : World → World → Prop.
Hypothesis P_refl : ∀ w, P w w.
Hypothesis P_trans : ∀ w1 w2 w3, P w1 w2 → P w2 w3 → P w1 w3.

Lemma keeps_ret {A} (a : A) : keeps P (ret a).
Proof. intros w. apply P_refl. Qed.

Lemma keeps_throw {A} e : keeps P (@throw A e).
Proof. intros w. apply P_refl. Qed.

Lemma keeps_gets {A} (f : World → A) : keeps P (gets f).
Proof. intros w. apply P_refl. Qed.

Lemma keeps_modify f : (∀ w, P w (f w)) → keeps P (modify f).
Proof. intros H w. apply H. Qed.

Lemma keeps_bind {A B} (m : M A) (k : A → M B) :
  keeps P m → (∀ a, keeps P (k a)) → keeps P (bind m k).
Proof.
  intros Hm Hk w. unfold bind. specialize (Hm w).
  destruct (m w) as [[a|e] w']; simpl in *; [|done].
  eapply P_trans; [exact Hm|apply Hk].
Qed.

Lemma keeps_try_catch {A} (m : M A) (h : JsError → M A) :
  keeps P m → (∀ e, keeps P (h e)) → keeps P (try_catch m h).
Proof.
  intros Hm Hh w. unfold try_catch. specialize (Hm w).
  destruct (m w) as [[a|e] w']; simpl in *; [done|].
  eapply P_trans; [exact Hm|apply Hh].
Qed.

Lemma keeps_forEach {A B} (f : A → M B) l :
  (∀ a, keeps P (f a)) → keeps P (forEach f l).
Proof.
  intros Hf. induction l as [|x l IH]; simpl.
  - apply keeps_ret.
  - apply keeps_bind; [apply Hf|]. intros y.
    apply keeps_bind; [apply IH|]. intros ys. apply keeps_ret.
Qed.
End Frame.

(** Rendering does not touch [this]. *)

Ltac frame :=
  repeat first
    [ apply keeps_ret; solve [intros; hnf; congruence]
    | apply keeps_throw; solve [intros; hnf; congruence]
    | apply keeps_gets; solve [intros; hnf; congruence]
    | apply keeps_modify; solve [intros; hnf; reflexivity]
    | apply keeps_forEach; [solve [intros; hnf; congruence] ..|intros ?]
    | apply keeps_bind; [solve [intros; hnf in *; congruence] ..| |intros ?]
    | match goal with
      | |- keeps _ (match ?x with _ => _ end) => destruct x
      end ].

Lemma renderTable_same_this : keeps same_this renderTable.
Proof.
  unfold renderTable, getSortedRows, createHeaderRow, createTableBody,
    Array_spread, Array_prototype_sort, Array_new, Array_items,
    assign_textContent, update_element, getElementById, console_error,
    this_data, this_.
  frame.
Qed.

(** ** handleSort *)

Lemma handleSort_run (key : string) (w : World) :
  handleSort key w =
    renderTable
      (set_sortConfig
         (SortConfig.make key
            (if decide (SortConfig.key (sortConfig (this w)) = key
                        ∧ SortConfig.direction (sortConfig (this w)) = asc)
             then desc else asc)) w).
Proof. reflexivity. Qed.

Lemma handleSort_sortConfig (key : string) (w : World) :
  sortConfig (this (handleSort key w).2) =
    SortConfig.make key
      (if decide (SortConfig.key (sortConfig (this w)) = key
                  ∧ SortConfig.direction (sortConfig (this w)) = asc)
       then desc else asc).
Proof. rewrite handleSort_run. by rewrite (renderTable_same_this _). Qed.

(** C3.  [handleSort(k)] replaces the sort state by [{key: k, direction: d}],
    where [d] is "desc" exactly when [k] is the current key and the current
    direction is "asc", and "asc" in every other case.  In particular, from
    [{key: "average", direction: "desc"}], [handleSort("average")] gives
    "asc", a second [handleSort("average")] gives "desc", and
    [handleSort("method")] from either state gives
    [{key: "method", direction: "asc"}]. *)
Theorem handleSort_toggle (k : string) (w : World) :
  let before := sortConfig (this w) in
  let after := sortConfig (this (handleSort k w).2) in
  let start := set_sortConfig (SortConfig.make "average" desc) w in
  let once := (handleSort "average" start).2 in
  let twice := (handleSort "average" once).2 in
  SortConfig.key after = k
  ∧ (SortConfig.direction after = desc
     ↔ SortConfig.key before = k ∧ SortConfig.direction before = asc)
  ∧ (SortConfig.direction after = asc
     ↔ ¬ (SortConfig.key before = k ∧ SortConfig.direction before = asc))
  ∧ sortConfig (this once) = SortConfig.make "average" asc
  ∧ sortConfig (this twice) = SortConfig.make "average" desc
  ∧ sortConfig (this (handleSort "method" start).2) = SortConfig.make "method" asc
  ∧ sortConfig (this (handleSort "method" once).2) = SortConfig.make "method" asc.
Proof.
  cbv zeta. rewrite !handleSort_sortConfig. simpl.
  split_and!; try reflexivity.
  - case_decide; split; (done || tauto).
  - case_decide; split; (done || tauto).
Qed.

(** ** renderTable without a data set *)

Lemma renderTable_unset_run (w : World) :
  data (this w) = None →
  renderTable w =
    (Normal tt,
     set_console
       (console w ++ [ConsoleError "No data available to render table" None]) w).
Proof.
  intros Hd. unfold renderTable, bind, this_, gets. simpl.
  rewrite Hd. reflexivity.
Qed.

(** C6.  Called while the data set is unset, [renderTable()] logs an error,
    raises no exception and changes nothing in the document: title, header
    container and body container are as they were. *)
Theorem renderTable_unset (w : World) :
  data (this w) = None →
  ∃ w',
    renderTable w = (Normal tt, w')
    ∧ console w' = console w ++ [ConsoleError "No data available to render table" None]
    ∧ document w' = document w
    ∧ this w' = this w
    ∧ arrays w' = arrays w.
Proof.
  intros Hd. rewrite (renderTable_unset_run w Hd).
  eexists. split; [reflexivity|]. done.
Qed.

(** C9, as the code has it.  With the data set unset, [handleSort(key)]
    raises nothing, leaves the document, the arrays and the (unset) data set
    as they were and logs one error; the sort state is replaced all the
    same. *)
Theorem handleSort_unset (key : string) (w : World) :
  data (this w) = None →
  ∃ w',
    handleSort key w = (Normal tt, w')
    ∧ document w' = document w
    ∧ arrays w' = arrays w
    ∧ data (this w') = None
    ∧ console w' = console w ++ [ConsoleError "No data available to render table" None]
    ∧ sortConfig (this w') =
        SortConfig.make key
          (if decide (SortConfig.key (sortConfig (this w)) = key
                      ∧ SortConfig.direction (sortConfig (this w)) = asc)
           then desc else asc).
Proof.
  intros Hd. rewrite handleSort_run, renderTable_unset_run by exact Hd.
  eexists. split; [reflexivity|]. done.
Qed.

(** ** loadData *)

Lemma append_empty_r (s : string) : s +:+ "" = s.
Proof.
  induction s as [|c s IH]; [reflexivity|].
  change (String c (s +:+ "") = String c s). by rewrite IH.
Qed.

Lemma textContent_set_textContent (s : string) (n : Node) :
  textContent (set_textContent s n) = s.
Proof.
  destruct n as [|tag cls ls children]; simpl; [done|].
  case_decide; simpl; [done|]. apply append_empty_r.
Qed.

Lemma loadData_catch_run (error : JsError) (w : World) :
  loadData_catch error w =
    (Throw (match document w !! titleId (this w) with
            | Some _ => error
            | None => TypeError "Cannot set properties of null"
            end),
     after_catch error w).
Proof.
  unfold loadData_catch, after_catch, console_error, getElementById,
    assign_textContent, update_element, assignable, this_, bind, gets, modify,
    ret, throw.
  simpl. destruct (document w !! titleId (this w)); reflexivity.
Qed.

Lemma loadData_run (w : World) :
  loadData w =
    match network w (dataUrl (this w)) with
    | Rejected e => loadData_catch e w
    | Resolved response =>
        if Response.ok response then
          match Response.body response with
          | inl e => loadData_catch e w
          | inr p =>
              (Normal (Dataset.make (Payload.title p) (Payload.columns p)
                         (length (arrays w))),
               after_load p w)
          end
        else loadData_catch (Error (failed_to_load response)) w
    end.
Proof.
  unfold loadData, try_catch, fetch, this_, bind, gets. simpl.
  destruct (network w (dataUrl (this w))) as [e|response]; simpl; [done|].
  destruct (Response.ok response); simpl; [|done].
  unfold Response_json.
  destruct (Response.body response) as [e|p]; simpl; [done|].
  reflexivity.
Qed.

(** C10.  A failing [loadData()], whatever made it fail (the status, the
    network, the parse of the body), leaves the stored data set as it was. *)
Theorem loadData_failure_keeps_data (w w' : World) (e : JsError) :
  loadData w = (Throw e, w') → data (this w') = data (this w).
Proof.
  rewrite loadData_run.
  assert (Hc : ∀ e0, loadData_catch e0 w = (Throw e, w') →
                     data (this w') = data (this w)).
  { intros e0. rewrite loadData_catch_run. intros [= _ <-].
    unfold after_catch. by destruct (document w !! titleId (this w)). }
  destruct (network w (dataUrl (this w))) as [e0|response]; [apply Hc|].
  destruct (Response.ok response); [|apply Hc].
  destruct (Response.body response) as [e0|p]; [apply Hc|done].
Qed.


(** ** init *)

Lemma init_after_failure (w w1 : World) (e : JsError) :
  loadData w = (Throw e, w1) →
  init w =
    (Normal false,
     set_console
       (console w1 ++ [ConsoleError "Failed to initialize leaderboard:" (Some e)]) w1).
Proof.
  intros H. unfold init, try_catch, bind. rewrite H. reflexivity.
Qed.

Lemma not_found_is_not_ok (response : Response.t) :
  Response.status response = 404%N → Response.ok response = false.
Proof. unfold Response.ok. by intros ->. Qed.

(** C4, as the code has it.  When the fetch of [dataUrl] answers with status
    404 and the page has a title element, the text of the title element
    becomes the fixed message "Error loading leaderboard data", in which
    "404" does not occur; [init()] resolves to false; and the body
    container, an element other than the title, remains empty.  The status
    404 is carried by the error, which is logged to the console. *)
Theorem init_not_found (w : World) (response : Response.t) :
  network w (dataUrl (this w)) = Resolved response →
  Response.status response = 404%N →
  is_Some (document w !! titleId (this w)) →
  ∃ w',
    init w = (Normal false, w')
    ∧ textContent <$> document w' !! titleId (this w)
      = Some "Error loading leaderboard data"
    ∧ includes "Error loading leaderboard data" "404" = false
    ∧ (bodyId (this w) ≠ titleId (this w) →
       ∀ before after,
         document w !! bodyId (this w) = Some before →
         childNodes_of before = [] →
         document w' !! bodyId (this w) = Some after →
         childNodes_of after = [])
    ∧ console w' =
        console w ++
          [ConsoleError "Error loading leaderboard data:"
             (Some (Error ("Failed to load data: 404 "
                           +:+ Response.statusText response)));
           ConsoleError "Failed to initialize leaderboard:"
             (Some (Error ("Failed to load data: 404 "
                           +:+ Response.statusText response)))].
Proof.
  intros Hnet Hstatus [el Hel].
  pose proof (not_found_is_not_ok _ Hstatus) as Hok.
  assert (Hload : loadData w =
            (Throw (Error (failed_to_load response)),
             after_catch (Error (failed_to_load response)) w)).
  { by rewrite loadData_run, Hnet, Hok, loadData_catch_run, Hel. }
  rewrite (init_after_failure _ _ _ Hload). eexists. split; [reflexivity|].
  assert (Hmsg : failed_to_load response =
                 "Failed to load data: 404 " +:+ Response.statusText response).
  { unfold failed_to_load. by rewrite Hstatus. }
  unfold after_catch. rewrite Hel, Hmsg. simpl.
  split_and!.
  - rewrite lookup_alter_eq, Hel. simpl. by rewrite textContent_set_textContent.
  - reflexivity.
  - intros Hne before after Hbefore Hempty Hafter.
    rewrite lookup_alter_ne in Hafter by congruence. congruence.
  - by rewrite <- app_assoc.
Qed.

(** ** getSortedRows *)

Lemma num_ltb_asym (x y : num) : num_ltb x y = true → num_ltb y x = false.
Proof.
  destruct x as [|p|], y as [|q|]; simpl; try done.
  rewrite <- (Qcompare_antisym p q). by destruct (p ?= q)%Q.
Qed.

Lemma num_ltb_le_trans (x y z : num) :
  num_ltb y x = false → num_ltb z y = false → num_ltb z x = false.
Proof.
  destruct x as [|p|], y as [|q|], z as [|r|]; simpl; try done.
  intros H1 H2.
  assert (Hpq : (p <= q)%Q).
  { apply Qle_alt. rewrite <- (Qcompare_antisym q p).
    by destruct (q ?= p)%Q. }
  assert (Hqr : (q <= r)%Q).
  { apply Qle_alt. rewrite <- (Qcompare_antisym r q).
    by destruct (r ?= q)%Q. }
  pose proof (proj1 (Qle_alt _ _) (Qle_trans _ _ _ Hpq Hqr)) as Hpr.
  rewrite <- (Qcompare_antisym r p) in Hpr.
  by destruct (r ?= p)%Q.
Qed.

Lemma string_ltb_asym (x y : string) :
  String.ltb x y = true → String.ltb y x = false.
Proof.
  unfold String.ltb. rewrite (String.compare_antisym y x).
  by destruct (String.compare x y).
Qed.

Lemma string_ltb_le_trans (x y z : string) :
  String.ltb y x = false → String.ltb z y = false → String.ltb z x = false.
Proof.
  unfold String.ltb. intros Hyx Hzy.
  destruct (String.compare z x) eqn:Hzx; try done.
  apply String_as_OT.cmp_lt in Hzx.
  destruct (String.compare y x) eqn:E; [|done|].
  - apply String.compare_eq_iff in E as ->.
    apply String_as_OT.cmp_lt in Hzx. unfold String_as_OT.cmp in Hzx.
    by rewrite Hzx in Hzy.
  - assert (Hxy : String_as_OT.lt x y).
    { apply String_as_OT.cmp_lt. unfold String_as_OT.cmp.
      rewrite String.compare_antisym, E. reflexivity. }
    pose proof (String_as_OT.lt_trans _ _ _ Hzx Hxy) as Hlt.
    apply String_as_OT.cmp_lt in Hlt. unfold String_as_OT.cmp in Hlt.
    by rewrite Hlt in Hzy.
Qed.

(** On values of one kind the comparison is defined and is a strict weak
    order, so the comparator of [getSortedRows] is consistent. *)
Section KeyOrder.
Variable kind : value → bool.
Hypothesis kind_defined :
  ∀ x y, kind x = true → kind y = true → IsLessThan x y = Some (js_lt x y).
Hypothesis kind_asym :
  ∀ x y, kind x = true → kind y = true → js_lt x y = true → js_lt y x = false.
Hypothesis kind_le_trans :
  ∀ x y z, kind x = true → kind y = true → kind z = true →
    js_lt y x = false → js_lt z y = false → js_lt z x = false.

Variable sc : SortConfig.t.

Local Abbreviation has_kind := (of_kind kind (SortConfig.key sc)).

Lemma in_order_compareRows (a b : Row) :
  has_kind a → has_kind b →
  in_order (compareRows sc) a b ↔
    match SortConfig.direction sc with
    | asc => js_lt (prop b (SortConfig.key sc)) (prop a (SortConfig.key sc)) = false
    | desc => js_lt (prop a (SortConfig.key sc)) (prop b (SortConfig.key sc)) = false
    end.
Proof.
  unfold of_kind, in_order, compareRows, js_gt. intros Ha Hb.
  fold (js_lt (prop b (SortConfig.key sc)) (prop a (SortConfig.key sc))).
  pose proof (kind_asym _ _ Ha Hb) as Hasym.
  destruct (SortConfig.direction sc);
    destruct (js_lt (prop a (SortConfig.key sc)) (prop b (SortConfig.key sc)));
    destruct (js_lt (prop b (SortConfig.key sc)) (prop a (SortConfig.key sc)));
    split; intros; try done; try lia; by specialize (Hasym eq_refl).
Qed.

Lemma compareRows_total (a b : Row) :
  has_kind a → has_kind b →
  in_order (compareRows sc) a b ∨ in_order (compareRows sc) b a.
Proof.
  intros Ha Hb. rewrite !in_order_compareRows by done.
  pose proof (kind_asym _ _ Ha Hb). pose proof (kind_asym _ _ Hb Ha).
  destruct (SortConfig.direction sc);
    destruct (js_lt (prop a (SortConfig.key sc)) (prop b (SortConfig.key sc)));
    destruct (js_lt (prop b (SortConfig.key sc)) (prop a (SortConfig.key sc)));
    auto.
Qed.

Lemma compareRows_trans (a b c : Row) :
  has_kind a → has_kind b → has_kind c →
  in_order (compareRows sc) a b → in_order (compareRows sc) b c →
  in_order (compareRows sc) a c.
Proof.
  intros Ha Hb Hc. rewrite !in_order_compareRows by done.
  destruct (SortConfig.direction sc); intros H1 H2.
  - exact (kind_le_trans _ _ _ Ha Hb Hc H1 H2).
  - exact (kind_le_trans _ _ _ Hc Hb Ha H2 H1).
Qed.

Lemma in_order_js (a b : Row) :
  has_kind a → has_kind b → in_order (compareRows sc) a b →
  match SortConfig.direction sc with
  | asc => js_le (prop a (SortConfig.key sc)) (prop b (SortConfig.key sc)) = true
  | desc => js_ge (prop a (SortConfig.key sc)) (prop b (SortConfig.key sc)) = true
  end.
Proof.
  intros Ha Hb. rewrite in_order_compareRows by done.
  unfold js_le, js_ge.
  destruct (SortConfig.direction sc); intros H.
  - by rewrite (kind_defined _ _ Hb Ha), H.
  - by rewrite (kind_defined _ _ Ha Hb), H.
Qed.

Lemma sorted_rows_of_kind (rows : list Row) :
  Forall has_kind rows →
  ∀ i j a b, (i < j)%nat →
    Array_sort (compareRows sc) rows !! i = Some a →
    Array_sort (compareRows sc) rows !! j = Some b →
    match SortConfig.direction sc with
    | asc => js_le (prop a (SortConfig.key sc)) (prop b (SortConfig.key sc)) = true
    | desc => js_ge (prop a (SortConfig.key sc)) (prop b (SortConfig.key sc)) = true
    end.
Proof.
  intros Hrows i j a b Hij Hi Hj.
  assert (Hsorted : Forall has_kind (Array_sort (compareRows sc) rows)).
  { by rewrite Array_sort_Permutation. }
  pose proof (Array_sort_sorted (compareRows sc) has_kind
                compareRows_total compareRows_trans rows Hrows) as Hs.
  rewrite Forall_forall in Hsorted.
  apply in_order_js.
  - apply Hsorted. eapply list_elem_of_lookup_2, Hi.
  - apply Hsorted. eapply list_elem_of_lookup_2, Hj.
  - clear Hsorted Hrows. revert i j Hij Hi Hj.
    induction Hs as [|x l Hs IH Hx]; intros i j Hij Hi Hj; [done|].
    destruct j as [|j]; [lia|]. destruct i as [|i]; simpl in *.
    + injection Hi as ->. rewrite Forall_forall in Hx. apply Hx.
      eapply list_elem_of_lookup_2, Hj.
    + apply (IH i j); [lia|done..].
Qed.
End KeyOrder.

Lemma js_lt_numbers (n m : num) : js_lt (VNumber n) (VNumber m) = num_ltb n m.
Proof. unfold js_lt. simpl. by destruct (num_ltb n m). Qed.

Lemma js_lt_strings (s t : string) : js_lt (VString s) (VString t) = String.ltb s t.
Proof. unfold js_lt. simpl. by destruct (String.ltb s t). Qed.

Lemma sorted_numbers (sc : SortConfig.t) (rows : list Row) :
  forallb (λ row, is_number (prop row (SortConfig.key sc))) rows = true →
  ∀ i j a b, (i < j)%nat →
    Array_sort (compareRows sc) rows !! i = Some a →
    Array_sort (compareRows sc) rows !! j = Some b →
    match SortConfig.direction sc with
    | asc => js_le (prop a (SortConfig.key sc)) (prop b (SortConfig.key sc)) = true
    | desc => js_ge (prop a (SortConfig.key sc)) (prop b (SortConfig.key sc)) = true
    end.
Proof.
  intros H. apply (sorted_rows_of_kind is_number).
  - intros [|n|] [|m|]; try done. intros _ _. by rewrite js_lt_numbers.
  - intros [|n|] [|m|]; try done. intros _ _. rewrite !js_lt_numbers.
    apply num_ltb_asym.
  - intros [|n|] [|m|] [|k|]; try done. intros _ _ _. rewrite !js_lt_numbers.
    apply num_ltb_le_trans.
  - apply Forall_forall. intros row Hrow. rewrite forallb_forall in H.
    apply H. by apply list_elem_of_In.
Qed.

Lemma sorted_strings (sc : SortConfig.t) (rows : list Row) :
  forallb (λ row, is_string (prop row (SortConfig.key sc))) rows = true →
  ∀ i j a b, (i < j)%nat →
    Array_sort (compareRows sc) rows !! i = Some a →
    Array_sort (compareRows sc) rows !! j = Some b →
    match SortConfig.direction sc with
    | asc => js_le (prop a (SortConfig.key sc)) (prop b (SortConfig.key sc)) = true
    | desc => js_ge (prop a (SortConfig.key sc)) (prop b (SortConfig.key sc)) = true
    end.
Proof.
  intros H. apply (sorted_rows_of_kind is_string).
  - intros [|?|s] [|?|t]; try done. intros _ _. by rewrite js_lt_strings.
  - intros [|?|s] [|?|t]; try done. intros _ _. rewrite !js_lt_strings.
    apply string_ltb_asym.
  - intros [|?|s] [|?|t] [|?|u]; try done. intros _ _ _. rewrite !js_lt_strings.
    apply string_ltb_le_trans.
  - apply Forall_forall. intros row Hrow. rewrite forallb_forall in H.
    apply H. by apply list_elem_of_In.
Qed.

(** On a column of one kind the sort sorts. *)
Lemma Array_sort_sorted_on (sc : SortConfig.t) (rows : list Row) :
  same_kind_at (SortConfig.key sc) rows = true →
  sorted_on sc (Array_sort (compareRows sc) rows).
Proof.
  unfold same_kind_at, sorted_on. intros Hkind.
  apply orb_true_iff in Hkind as [H|H].
  - by apply sorted_numbers.
  - by apply sorted_strings.
Qed.

Lemma insert_last {A : Type} (l : list A) (x y : A) :
  <[length l := y]> (l ++ [x]) = l ++ [y].
Proof.
  rewrite <- (Nat.add_0_r (length l)) at 1. by rewrite insert_app_r.
Qed.

(** The run of [getSortedRows] on a loaded renderer: a new array is added
    to the store, holding the sorted copy. *)
Lemma getSortedRows_run (w : World) (d : Dataset.t) (rows : list Row) :
  data (this w) = Some d →
  arrays w !! Dataset.rows d = Some rows →
  getSortedRows w =
    (Normal (length (arrays w)),
     set_arrays
       (arrays w ++ [Array_sort (compareRows (sortConfig (this w))) rows]) w).
Proof.
  intros Hd Hrows.
  unfold getSortedRows, Array_spread, Array_prototype_sort, Array_new,
    Array_items, this_data, this_, bind, gets, modify, ret.
  simpl. rewrite Hd. simpl. rewrite Hrows. simpl.
  rewrite lookup_app_r, Nat.sub_diag by done. simpl.
  by rewrite insert_last.
Qed.

(** C2.  [getSortedRows()] answers a new array that is a permutation of
    [Dataset.rows] (same length, same rows with the same multiplicities),
    and [Dataset.rows], like every array there was, is left as it is: the
    sort works on a copy. *)
Theorem getSortedRows_permutation (w : World) (d : Dataset.t) (rows : list Row) :
  data (this w) = Some d →
  arrays w !! Dataset.rows d = Some rows →
  ∃ result sorted w',
    getSortedRows w = (Normal result, w')
    ∧ arrays w' !! result = Some sorted
    ∧ arrays w !! result = None
    ∧ result ≠ Dataset.rows d
    ∧ sorted ≡ₚ rows
    ∧ length sorted = length rows
    ∧ arrays w' !! Dataset.rows d = Some rows
    ∧ (∀ a items, arrays w !! a = Some items → arrays w' !! a = Some items)
    ∧ this w' = this w.
Proof.
  intros Hd Hrows. rewrite (getSortedRows_run w d rows Hd Hrows).
  do 3 eexists. split; [reflexivity|]. simpl.
  assert (Hold : ∀ a items, arrays w !! a = Some items →
            (arrays w ++ [Array_sort (compareRows (sortConfig (this w))) rows])
              !! a = Some items).
  { intros a items Ha. by apply lookup_app_l_Some. }
  split_and!.
  - by rewrite lookup_app_r, Nat.sub_diag.
  - by apply lookup_ge_None.
  - intros Heq. apply lookup_lt_Some in Hrows. lia.
  - apply Array_sort_Permutation.
  - apply Permutation_length, Array_sort_Permutation.
  - by apply Hold.
  - exact Hold.
  - reflexivity.
Qed.

(** C1, as the code has it.  When the rows all hold a number at the sort
    key, or all hold a string there, the array [getSortedRows()] answers is
    sorted on that value: for a row [a] standing before a row [b],
    [a[key] <= b[key]] under "asc" and [a[key] >= b[key]] under "desc". *)
Theorem getSortedRows_sorted (w : World) (d : Dataset.t) (rows : list Row) :
  data (this w) = Some d →
  arrays w !! Dataset.rows d = Some rows →
  same_kind_at (SortConfig.key (sortConfig (this w))) rows = true →
  ∃ result sorted w',
    getSortedRows w = (Normal result, w')
    ∧ arrays w' !! result = Some sorted
    ∧ ∀ i j a b, (i < j)%nat →
        sorted !! i = Some a → sorted !! j = Some b →
        match SortConfig.direction (sortConfig (this w)) with
        | asc =>
            js_le (prop a (SortConfig.key (sortConfig (this w))))
                  (prop b (SortConfig.key (sortConfig (this w)))) = true
        | desc =>
            js_ge (prop a (SortConfig.key (sortConfig (this w))))
                  (prop b (SortConfig.key (sortConfig (this w)))) = true
        end.
Proof.
  intros Hd Hrows Hkind. rewrite (getSortedRows_run w d rows Hd Hrows).
  do 3 eexists. split; [reflexivity|]. simpl. split.
  - by rewrite lookup_app_r, Nat.sub_diag.
  - unfold same_kind_at in Hkind. apply orb_true_iff in Hkind as [H|H].
    + by apply sorted_numbers.
    + by apply sorted_strings.
Qed.

(** ** createTableBody *)

Lemma forEach_pure {A B : Type} (callback : A → M B) (g : A → B)
    (items : list A) (w : World) :
  (∀ x, callback x w = (Normal (g x), w)) →
  forEach callback items w = (Normal (map g items), w).
Proof.
  intros H. induction items as [|x items IH]; simpl; [done|].
  unfold bind. rewrite H, IH. reflexivity.
Qed.

Lemma lookup_map {A B : Type} (f : A → B) (l : list A) (i : nat) :
  map f l !! i = f <$> l !! i.
Proof.
  revert i. induction l as [|x l IH]; intros [|i]; simpl; try done.
Qed.

Lemma textContent_classList_add (token : string) (n : Node) :
  textContent (classList_add token n) = textContent n.
Proof. by destruct n. Qed.

Lemma textContent_createBodyCell (row : Row) (column : Column.t) :
  textContent (createBodyCell row column)
  = text_of_value (prop row (Column.id column)).
Proof.
  unfold createBodyCell.
  repeat case_decide; rewrite ?textContent_classList_add;
    apply textContent_set_textContent.
Qed.

Lemma createTableBody_run (w : World) (d : Dataset.t) (sortedRows : nat)
    (rows : list Row) :
  data (this w) = Some d →
  arrays w !! sortedRows = Some rows →
  createTableBody sortedRows w =
    (Normal (map (λ row, appendChild (map (createBodyCell row) (Dataset.columns d))
                           (createElement "tr")) rows), w).
Proof.
  intros Hd Hrows. unfold createTableBody, Array_items, bind, gets. simpl.
  rewrite Hrows. simpl. apply forEach_pure. intros row.
  unfold this_data, this_, bind, gets. rewrite Hd. simpl.
  by rewrite (forEach_pure _ (createBodyCell row)).
Qed.

(** C7, as the code has it.  In the body that [createTableBody] builds
    there is one row per row of the array, in order, and in it one cell per
    column, in column order.  The text of the cell is the value of the row
    at the id of the column: a string as it is, a number as ToString prints
    it.  When the row has no value there the cell is empty, unless the id
    is the name of a property the row inherits from [Object.prototype]:
    then the cell shows the text of that property. *)
Theorem createTableBody_cells (w : World) (d : Dataset.t) (sortedRows : nat)
    (rows : list Row) :
  data (this w) = Some d →
  arrays w !! sortedRows = Some rows →
  ∃ fragment,
    createTableBody sortedRows w = (Normal fragment, w)
    ∧ length fragment = length rows
    ∧ ∀ i row, rows !! i = Some row →
        ∃ tr,
          fragment !! i = Some tr
          ∧ length (childNodes_of tr) = length (Dataset.columns d)
          ∧ ∀ j column, Dataset.columns d !! j = Some column →
              ∃ td,
                childNodes_of tr !! j = Some td
                ∧ (∀ s, row !! Column.id column = Some (VString s) →
                     textContent td = s)
                ∧ (∀ n, row !! Column.id column = Some (VNumber n) →
                     textContent td = NumberToString n)
                ∧ (row !! Column.id column = None →
                   Object_prototype (Column.id column) = None →
                   textContent td = "")
                ∧ (∀ text, row !! Column.id column = None →
                     Object_prototype (Column.id column) = Some text →
                     textContent td = text).
Proof.
  intros Hd Hrows. rewrite (createTableBody_run w d sortedRows rows Hd Hrows).
  eexists. split; [reflexivity|]. split; [apply length_map|].
  intros i row Hi. eexists. split.
  { rewrite lookup_map, Hi. reflexivity. }
  simpl. split; [apply length_map|].
  intros j column Hj. eexists. split.
  { rewrite lookup_map, Hj. reflexivity. }
  rewrite textContent_createBodyCell. unfold prop. split_and!.
  - by intros s ->.
  - by intros n ->.
  - by intros -> ->.
  - by intros text -> ->.
Qed.

(** ** renderTable on a loaded renderer *)

Lemma returns_ret {A} (pre : World → Prop) (a : A) (post : A → World → Prop) :
  (∀ w, pre w → post a w) → returns pre (ret a) post.
Proof. intros H w Hw. exists a, w. auto. Qed.

Lemma returns_gets {A} (pre : World → Prop) (f : World → A)
    (post : A → World → Prop) :
  (∀ w, pre w → post (f w) w) → returns pre (gets f) post.
Proof. intros H w Hw. exists (f w), w. auto. Qed.

Lemma returns_gets_same {A} (pre : World → Prop) (f : World → A) :
  returns pre (gets f) (λ _, pre).
Proof. by apply returns_gets. Qed.

Lemma returns_ret_same {A} (pre : World → Prop) (a : A) :
  returns pre (ret a) (λ _, pre).
Proof. by apply returns_ret. Qed.

Lemma returns_weaken {A} (pre pre' : World → Prop) (m : M A)
    (post : A → World → Prop) :
  (∀ w, pre w → pre' w) → returns pre' m post → returns pre m post.
Proof. intros H Hm w Hw. apply Hm, H, Hw. Qed.

Lemma returns_modify (pre : World → Prop) (f : World → World)
    (post : unit → World → Prop) :
  (∀ w, pre w → post tt (f w)) → returns pre (modify f) post.
Proof. intros H w Hw. exists tt, (f w). auto. Qed.

Lemma returns_bind {A B} (pre : World → Prop) (m : M A) (k : A → M B)
    (mid : A → World → Prop) (post : B → World → Prop) :
  returns pre m mid → (∀ a, returns (mid a) (k a) post) →
  returns pre (bind m k) post.
Proof.
  intros Hm Hk w Hw. destruct (Hm w Hw) as (a & w1 & Hrun & Hmid).
  destruct (Hk a w1 Hmid) as (b & w2 & Hrun2 & Hpost).
  exists b, w2. unfold bind. by rewrite Hrun.
Qed.

Lemma returns_forEach {A B} (inv : World → Prop) (f : A → M B) (l : list A) :
  (∀ x, returns inv (f x) (λ _, inv)) →
  returns inv (forEach f l) (λ _, inv).
Proof.
  intros Hf. induction l as [|x l IH]; simpl.
  - apply returns_ret_same.
  - eapply returns_bind; [apply Hf|]. intros y.
    eapply returns_bind; [apply IH|]. intros ys. apply returns_ret_same.
Qed.

Lemma returns_update_element_same (inv : World → Prop) (el : string)
    (f : Node → Node) :
  (∀ w doc, inv w → inv (set_document doc w)) →
  returns inv (update_element el f) (λ _, inv).
Proof.
  intros H. unfold update_element.
  eapply returns_bind; [apply returns_gets_same|].
  intros doc. apply returns_modify. intros w Hw. by apply H.
Qed.

Section Loaded.
Variable d : Dataset.t.
Variable rows : list Row.

Lemma returns_this_ {A} (field : LeaderboardRenderer → A) :
  returns (loaded d rows) (this_ field)
    (λ a w, a = field (this w) ∧ loaded d rows w).
Proof. apply returns_gets. auto. Qed.

Lemma returns_this_data :
  returns (loaded d rows) this_data (λ _, loaded d rows).
Proof.
  intros w Hw. exists d, w. split; [|done].
  unfold this_data, this_, bind, gets. destruct Hw as [-> _]. reflexivity.
Qed.

Lemma returns_getElementById (id : string) :
  returns (loaded d rows) (getElementById id) (λ _, loaded d rows).
Proof.
  unfold getElementById. eapply returns_bind; [apply returns_gets_same|].
  intros doc. apply returns_ret_same.
Qed.

Lemma returns_update_element (el : string) (f : Node → Node) :
  returns (loaded d rows) (update_element el f) (λ _, loaded d rows).
Proof.
  by apply returns_update_element_same.
Qed.

Lemma returns_createHeaderRow :
  returns (loaded d rows) createHeaderRow (λ _, loaded d rows).
Proof.
  unfold createHeaderRow. eapply returns_bind; [apply returns_this_data|].
  intros d'. eapply returns_bind.
  - apply returns_forEach. intros column.
    eapply returns_bind; [apply returns_this_|]. intros sc.
    apply returns_ret. by intros w [_ Hw].
  - intros cells. apply returns_ret_same.
Qed.

Lemma returns_getSortedRows :
  returns (loaded d rows) getSortedRows
    (λ a w, loaded d rows w ∧ is_Some (arrays w !! a)).
Proof.
  intros w [Hd Hrows]. rewrite (getSortedRows_run w d rows Hd Hrows).
  do 2 eexists. split; [reflexivity|]. simpl. split; [split; [done|]|].
  - by apply lookup_app_l_Some.
  - rewrite lookup_app_r, Nat.sub_diag by done. by eexists.
Qed.

Lemma returns_createTableBody (sortedRows : nat) :
  returns (λ w, loaded d rows w ∧ is_Some (arrays w !! sortedRows))
    (createTableBody sortedRows) (λ _, loaded d rows).
Proof.
  intros w [[Hd Hrows] [sorted Hsorted]].
  rewrite (createTableBody_run w d sortedRows sorted Hd Hsorted).
  do 2 eexists. split; [reflexivity|]. by split.
Qed.

(** Whichever of the three elements the page lacks, [renderTable()] on a
    loaded renderer raises nothing: each element is looked up and tested
    before it is written to. *)
Lemma renderTable_returns :
  returns (loaded d rows) renderTable (λ _, loaded d rows).
Proof.
  unfold renderTable.
  eapply returns_bind; [apply (returns_this_ data)|].
  intros [d'|]; [|intros w [Hnone [Hd _]]; congruence].
  eapply returns_bind.
  { apply (returns_weaken _ (loaded d rows)); [by intros w [_ Hw]|].
    apply returns_gets_same. }
  intros id. eapply returns_bind; [apply returns_getElementById|].
  intros titleElement. eapply returns_bind.
  { destruct titleElement as [el|]; [|apply returns_ret_same].
    unfold assign_textContent.
    eapply returns_bind; [apply returns_this_data|].
    intros d0. apply returns_update_element. }
  intros ?. eapply returns_bind; [apply returns_gets_same|].
  intros id'. eapply returns_bind; [apply returns_getElementById|].
  intros tableHead. eapply returns_bind.
  { destruct tableHead as [el|]; [|apply returns_ret_same].
    eapply returns_bind; [apply returns_update_element|]. intros ?.
    eapply returns_bind; [apply returns_createHeaderRow|]. intros headerRow.
    apply returns_update_element. }
  intros ?. eapply returns_bind; [apply returns_getSortedRows|].
  intros sortedRows. eapply returns_bind; [apply returns_gets_same|].
  intros id''. eapply returns_bind.
  { unfold getElementById. eapply returns_bind; [apply returns_gets_same|].
    intros doc. apply returns_ret_same. }
  intros tableBody.
  destruct tableBody as [el|]; [|by apply returns_ret; intros w [Hw _]].
  eapply returns_bind; [by apply returns_update_element_same|].
  intros ?. eapply returns_bind; [apply returns_createTableBody|].
  intros fragment. apply returns_update_element.
Qed.
End Loaded.

(** * More of the renderer *)

(** ** The run of renderTable on a loaded renderer *)

Lemma createHeaderRow_run (w : World) (d : Dataset.t) :
  data (this w) = Some d →
  createHeaderRow w = (Normal (headerRow_of d (sortConfig (this w))), w).
Proof.
  intros Hd. unfold createHeaderRow, this_data, this_, bind, gets. simpl.
  rewrite Hd. simpl.
  by rewrite (forEach_pure _ (createHeaderCell (sortConfig (this w)))).
Qed.

Lemma set_document_document (w : World) : set_document (document w) w = w.
Proof. by destruct w. Qed.

(** A guarded write: look the element up, and change it if it is there. *)
Lemma guarded_update (id : string) (f : Node → Node) (w : World) :
  match document w !! id with
  | Some _ => update_element id f w
  | None => (Normal tt, w)
  end = (Normal tt, set_document (alter f id (document w)) w).
Proof.
  destruct (document w !! id) eqn:H; [reflexivity|].
  by rewrite alter_id', set_document_document.
Qed.

Lemma alter_replace_children (new : list Node) (i : string)
    (m : gmap string Node) :
  alter (replace_children new) i m
  = alter (appendChild new) i (alter clear_innerHTML i m).
Proof. rewrite alter_alter_eq. by apply alter_ext. Qed.

Lemma renderTable_run (w : World) (d : Dataset.t) (rows : list Row) :
  loaded d rows w →
  renderTable w =
    (Normal tt,
     set_document
       (rendered d (sortConfig (this w)) rows (this w) (document w))
       (set_arrays
          (arrays w ++ [Array_sort (compareRows (sortConfig (this w))) rows]) w)).
Proof.
  intros [Hd Hrows].
  assert (Hdata : this_data w = (Normal d, w)).
  { unfold this_data, this_, bind, gets. simpl. by rewrite Hd. }
  unfold rendered. rewrite !alter_replace_children.
  unfold renderTable, bind, this_, gets, getElementById, ret. simpl.
  rewrite Hd. simpl.
  destruct (document w !! titleId (this w)) eqn:Ht;
    [rewrite Hdata; unfold assign_textContent|];
    unfold update_element, bind, gets, modify; simpl.
  all: repeat match goal with
    | |- context [match ?m !! ?i with _ => _ end] =>
        destruct (m !! i) eqn:?; simpl
    | |- context [createHeaderRow ?w0] =>
        rewrite (createHeaderRow_run w0 d) by exact Hd; simpl
    | |- context [getSortedRows ?w0] =>
        rewrite (getSortedRows_run w0 d rows) by (simpl; assumption); simpl
    | |- context [createTableBody ?a ?w0] =>
        rewrite (createTableBody_run w0 d a
                   (Array_sort (compareRows (sortConfig (this w))) rows))
          by (simpl;
              first [exact Hd
                    | rewrite lookup_app_r, Nat.sub_diag by done; reflexivity]);
        simpl
    end.
  all: repeat match goal with
    | H : ?m !! ?i = None |- context [alter ?f ?i ?m] =>
        rewrite (alter_id' f m i H)
    end.
  all: reflexivity.
Qed.

Lemma lookup_rendered (d : Dataset.t) (sc : SortConfig.t) (rows : list Row)
    (r : LeaderboardRenderer) (doc : gmap string Node) (i : string) :
  rendered d sc rows r doc !! i = render_node d sc rows r i <$> doc !! i.
Proof.
  unfold rendered, render_node. rewrite !lookup_alter.
  destruct r as [? hid bid tid ? ? ?]. simpl.
  repeat case_decide; subst; try congruence;
    repeat match goal with |- context [doc !! ?k] => destruct (doc !! k) end;
    reflexivity.
Qed.

Lemma render_node_idempotent (d : Dataset.t) (sc : SortConfig.t)
    (rows : list Row) (r : LeaderboardRenderer) (i : string) (n : Node) :
  render_node d sc rows r i (render_node d sc rows r i n)
  = render_node d sc rows r i n.
Proof.
  unfold render_node, replace_children.
  destruct n; repeat case_decide; reflexivity.
Qed.

(** X1.  On a loaded renderer [renderTable()] raises nothing, whichever of
    its three elements the page lacks.  It logs nothing and leaves [this]
    alone; an element that is missing is skipped, not created (an id that
    names no element names none afterwards); and every array there was is
    as it was. *)
Theorem renderTable_loaded (w : World) (d : Dataset.t) (rows : list Row) :
  loaded d rows w →
  ∃ w',
    renderTable w = (Normal tt, w')
    ∧ this w' = this w
    ∧ console w' = console w
    ∧ (∀ id, document w !! id = None → document w' !! id = None)
    ∧ (∀ a items, arrays w !! a = Some items → arrays w' !! a = Some items).
Proof.
  intros Hw. rewrite (renderTable_run w d rows Hw).
  eexists. split; [reflexivity|]. simpl. split_and!; try reflexivity.
  - intros id Hid. by rewrite lookup_rendered, Hid.
  - intros a items Ha. by apply lookup_app_l_Some.
Qed.

(** X2.  What [renderTable()] on a loaded renderer shows.  The rows of the
    body are the rows of the data in some order [sorted], a permutation of
    them, and that order is sorted on the sort key when the values at the
    key are all numbers or all strings.  Of an element that is found in
    the document afterwards: the title element has the title of the data
    set as its text; the header container has the header row as its only
    child; the body container has one row per row of [sorted], in that
    order, as its only children.  What the containers held before is
    discarded; their tag, class and listeners are kept.  (The element
    written to last wins when two of the ids are the same, hence the
    conditions on the ids.) *)
Theorem renderTable_shows (w : World) (d : Dataset.t) (rows : list Row) :
  loaded d rows w →
  ∃ w' sorted,
    renderTable w = (Normal tt, w')
    ∧ sorted ≡ₚ rows
    ∧ (same_kind_at (SortConfig.key (sortConfig (this w))) rows = true →
       sorted_on (sortConfig (this w)) sorted)
    ∧ (titleId (this w) ≠ headId (this w) →
       titleId (this w) ≠ bodyId (this w) →
       ∀ after,
         document w' !! titleId (this w) = Some after →
         textContent after = Dataset.title d)
    ∧ (headId (this w) ≠ bodyId (this w) →
       ∀ tag cls ls old after,
         document w !! headId (this w) = Some (Element tag cls ls old) →
         document w' !! headId (this w) = Some after →
         after = Element tag cls ls [headerRow_of d (sortConfig (this w))])
    ∧ (∀ tag cls ls old after,
         document w !! bodyId (this w) = Some (Element tag cls ls old) →
         document w' !! bodyId (this w) = Some after →
         after = Element tag cls ls (map (bodyRow_of d) sorted)).
Proof.
  intros Hw. rewrite (renderTable_run w d rows Hw).
  eexists _, (Array_sort (compareRows (sortConfig (this w))) rows).
  split; [reflexivity|]. simpl. split_and!.
  - apply Array_sort_Permutation.
  - apply Array_sort_sorted_on.
  - intros Hth Htb after Hafter. rewrite lookup_rendered in Hafter.
    destruct (document w !! titleId (this w)) as [n|]; simpl in Hafter; [|done].
    injection Hafter as <-. unfold render_node.
    repeat case_decide; try congruence. apply textContent_set_textContent.
  - intros Hhb tag cls ls old after Hn Hafter.
    rewrite lookup_rendered, Hn in Hafter. simpl in Hafter.
    injection Hafter as <-. unfold render_node.
    repeat case_decide; try congruence; reflexivity.
  - intros tag cls ls old after Hn Hafter.
    rewrite lookup_rendered, Hn in Hafter. simpl in Hafter.
    injection Hafter as <-. unfold render_node.
    repeat case_decide; try congruence; reflexivity.
Qed.

(** X3.  [renderTable()] is idempotent on the page: called again with the
    data set and the sort state as they are, it leaves the document exactly
    as the first call left it (and again logs nothing and keeps [this]). *)
Theorem renderTable_idempotent (w : World) (d : Dataset.t) (rows : list Row) :
  loaded d rows w →
  ∃ w1 w2,
    renderTable w = (Normal tt, w1)
    ∧ renderTable w1 = (Normal tt, w2)
    ∧ document w2 = document w1
    ∧ this w2 = this w1
    ∧ console w2 = console w1.
Proof.
  intros Hw. rewrite (renderTable_run w d rows Hw). eexists.
  assert (Hw1 : loaded d rows
            (set_document
               (rendered d (sortConfig (this w)) rows (this w) (document w))
               (set_arrays
                  (arrays w
                   ++ [Array_sort (compareRows (sortConfig (this w))) rows]) w))).
  { destruct Hw as [Hd Hrows]. split; [exact Hd|]. simpl.
    by apply lookup_app_l_Some. }
  rewrite (renderTable_run _ d rows Hw1). eexists.
  split; [reflexivity|]. split; [reflexivity|]. simpl.
  split; [|done]. apply map_eq. intros i.
  rewrite !lookup_rendered. destruct (document w !! i); simpl; [|done].
  by rewrite render_node_idempotent.
Qed.

(** ** createHeaderRow *)

Lemma textContent_addEventListener (l : Listener) (n : Node) :
  textContent (addEventListener l n) = textContent n.
Proof. by destruct n. Qed.

Lemma textContent_className_append (suffix : string) (n : Node) :
  textContent (className_append suffix n) = textContent n.
Proof. by destruct n. Qed.

Lemma textContent_createHeaderCell (sc : SortConfig.t) (column : Column.t) :
  textContent (createHeaderCell sc column) = Column.label column.
Proof.
  unfold createHeaderCell.
  destruct (Column.sortable column), (Column.emphasized column);
    repeat case_decide;
    rewrite ?textContent_classList_add, ?textContent_className_append,
      ?textContent_addEventListener, ?textContent_classList_add;
    apply textContent_set_textContent.
Qed.

Lemma listeners_createHeaderCell (sc : SortConfig.t) (column : Column.t) :
  listeners_of (createHeaderCell sc column)
  = if Column.sortable column then [ClickHandleSort (Column.id column)] else [].
Proof.
  unfold createHeaderCell.
  destruct (Column.sortable column), (Column.emphasized column);
    repeat case_decide; reflexivity.
Qed.

(** X4.  The row [createHeaderRow()] builds has one cell per column, in
    column order; the text of a cell is the label of its column; the cell
    of a sortable column has one listener, the click that calls
    [handleSort] with the id of the column, and the cell of a column that
    is not sortable has none.  The world is not changed. *)
Theorem createHeaderRow_cells (w : World) (d : Dataset.t) :
  data (this w) = Some d →
  ∃ tr,
    createHeaderRow w = (Normal tr, w)
    ∧ length (childNodes_of tr) = length (Dataset.columns d)
    ∧ ∀ j column, Dataset.columns d !! j = Some column →
        ∃ th,
          childNodes_of tr !! j = Some th
          ∧ textContent th = Column.label column
          ∧ listeners_of th
            = if Column.sortable column
              then [ClickHandleSort (Column.id column)] else [].
Proof.
  intros Hd. rewrite (createHeaderRow_run w d Hd).
  eexists. split; [reflexivity|]. simpl. split; [apply length_map|].
  intros j column Hj. eexists. split.
  { rewrite lookup_map, Hj. reflexivity. }
  split; [apply textContent_createHeaderCell|apply listeners_createHeaderCell].
Qed.

Lemma classes_createHeaderCell (sc : SortConfig.t) (column : Column.t) :
  let tokens := class_tokens (className_of (createHeaderCell sc column)) in
  ("sortable" ∈ tokens ↔ Column.sortable column = true)
  ∧ ("sorted-asc" ∈ tokens
     ↔ Column.sortable column = true
       ∧ SortConfig.key sc = Column.id column
       ∧ SortConfig.direction sc = asc)
  ∧ ("sorted-desc" ∈ tokens
     ↔ Column.sortable column = true
       ∧ SortConfig.key sc = Column.id column
       ∧ SortConfig.direction sc = desc)
  ∧ ("average-column" ∈ tokens ↔ Column.emphasized column = true).
Proof.
  unfold createHeaderCell.
  destruct (Column.sortable column), (Column.emphasized column),
    (SortConfig.direction sc);
    repeat case_decide; vm_compute class_tokens; cbv zeta;
    rewrite ?elem_of_cons, ?elem_of_nil; intuition congruence.
Qed.

(** X5.  The classes of a header cell: "sortable" exactly when the column
    is sortable; "sorted-asc" (or "sorted-desc") exactly when the column is
    sortable, its id is the current sort key and the direction is "asc"
    (or "desc"); "average-column" exactly when the column is emphasized,
    sortable or not. *)
Theorem createHeaderRow_classes (w : World) (d : Dataset.t) :
  data (this w) = Some d →
  ∃ tr,
    createHeaderRow w = (Normal tr, w)
    ∧ ∀ j column, Dataset.columns d !! j = Some column →
        ∃ th,
          childNodes_of tr !! j = Some th
          ∧ ("sortable" ∈ class_tokens (className_of th)
             ↔ Column.sortable column = true)
          ∧ ("sorted-asc" ∈ class_tokens (className_of th)
             ↔ Column.sortable column = true
               ∧ SortConfig.key (sortConfig (this w)) = Column.id column
               ∧ SortConfig.direction (sortConfig (this w)) = asc)
          ∧ ("sorted-desc" ∈ class_tokens (className_of th)
             ↔ Column.sortable column = true
               ∧ SortConfig.key (sortConfig (this w)) = Column.id column
               ∧ SortConfig.direction (sortConfig (this w)) = desc)
          ∧ ("average-column" ∈ class_tokens (className_of th)
             ↔ Column.emphasized column = true).
Proof.
  intros Hd. rewrite (createHeaderRow_run w d Hd).
  eexists. split; [reflexivity|]. simpl.
  intros j column Hj. eexists. split.
  { rewrite lookup_map, Hj. reflexivity. }
  apply classes_createHeaderCell.
Qed.

(** ** The classes of the body cells *)

Lemma classes_createBodyCell (row : Row) (column : Column.t) :
  let tokens := class_tokens (className_of (createBodyCell row column)) in
  ("method-column" ∈ tokens ↔ Column.id column = "method")
  ∧ ("average-column" ∈ tokens ↔ Column.id column = "average").
Proof.
  unfold createBodyCell.
  repeat case_decide; vm_compute class_tokens; cbv zeta;
    rewrite ?elem_of_cons, ?elem_of_nil; intuition congruence.
Qed.

(** X6.  In the body [createTableBody] builds, a cell has the class
    "method-column" exactly when the id of its column is "method" and the
    class "average-column" exactly when that id is "average", whatever the
    flags of the column are. *)
Theorem createTableBody_classes (w : World) (d : Dataset.t) (sortedRows : nat)
    (rows : list Row) :
  data (this w) = Some d →
  arrays w !! sortedRows = Some rows →
  ∃ fragment,
    createTableBody sortedRows w = (Normal fragment, w)
    ∧ ∀ i row, rows !! i = Some row →
        ∃ tr,
          fragment !! i = Some tr
          ∧ ∀ j column, Dataset.columns d !! j = Some column →
              ∃ td,
                childNodes_of tr !! j = Some td
                ∧ ("method-column" ∈ class_tokens (className_of td)
                   ↔ Column.id column = "method")
                ∧ ("average-column" ∈ class_tokens (className_of td)
                   ↔ Column.id column = "average").
Proof.
  intros Hd Hrows. rewrite (createTableBody_run w d sortedRows rows Hd Hrows).
  eexists. split; [reflexivity|].
  intros i row Hi. eexists. split.
  { rewrite lookup_map, Hi. reflexivity. }
  simpl. intros j column Hj. eexists. split.
  { rewrite lookup_map, Hj. reflexivity. }
  apply classes_createBodyCell.
Qed.

(** ** getSortedRows at the edges *)

Lemma compareRows_undefined (sc : SortConfig.t) (a b : Row) :
  prop a (SortConfig.key sc) = VUndefined
  ∨ prop b (SortConfig.key sc) = VUndefined →
  compareRows sc a b = 0.
Proof.
  unfold compareRows, js_lt, js_gt, IsLessThan.
  intros [-> | ->];
    [destruct (prop b (SortConfig.key sc)) as [|n|s]
    |destruct (prop a (SortConfig.key sc)) as [|n|s]];
    simpl; try reflexivity; by destruct (StringToNumber s).
Qed.

Lemma js_lt_irrefl (v : value) : js_lt v v = false.
Proof.
  destruct v as [|[|q|]|s]; unfold js_lt; simpl; try done.
  - by rewrite (proj1 (Qeq_alt q q) (Qeq_refl q)).
  - unfold String.ltb. pose proof (String.compare_antisym s s) as H.
    by destruct (String.compare s s).
Qed.

(** Two rows with the same value at the sort key compare equal. *)
Lemma compareRows_same (sc : SortConfig.t) (a b : Row) :
  prop a (SortConfig.key sc) = prop b (SortConfig.key sc) →
  compareRows sc a b = 0.
Proof.
  unfold compareRows. intros ->.
  change (js_gt (prop b (SortConfig.key sc)) (prop b (SortConfig.key sc)))
    with (js_lt (prop b (SortConfig.key sc)) (prop b (SortConfig.key sc))).
  by rewrite js_lt_irrefl.
Qed.

Lemma StronglySorted_all {A : Type} (R : A → A → Prop) (l : list A) :
  (∀ a b, a ∈ l → b ∈ l → R a b) → StronglySorted R l.
Proof.
  induction l as [|x l IH]; intros H; constructor.
  - apply IH. intros a b Ha Hb. apply H; by right.
  - apply Forall_forall. intros y Hy. apply H; [by left|by right].
Qed.

(** X7.  When no row has a value at the sort key (the key names no
    column of the data, say), [getSortedRows()] answers the rows in the
    order the data set has them, under either direction: every comparison
    meets [undefined] (or, for a key that names an inherited property, the
    same inherited value on both sides) and answers 0. *)
Theorem getSortedRows_missing_key (w : World) (d : Dataset.t) (rows : list Row) :
  loaded d rows w →
  Forall (λ row : Row, row !! SortConfig.key (sortConfig (this w)) = None) rows →
  ∃ result w',
    getSortedRows w = (Normal result, w')
    ∧ arrays w' !! result = Some rows.
Proof.
  intros [Hd Hrows] Hmissing. rewrite (getSortedRows_run w d rows Hd Hrows).
  do 2 eexists. split; [reflexivity|]. simpl.
  rewrite lookup_app_r, Nat.sub_diag by done. simpl. f_equal.
  apply Array_sort_in_order, StronglySorted_all.
  rewrite Forall_forall in Hmissing.
  intros a b Ha Hb. unfold in_order.
  rewrite compareRows_same; [done|].
  unfold prop. by rewrite (Hmissing a Ha), (Hmissing b Hb).
Qed.

(** X8.  Before a data set is loaded, [getSortedRows()] and
    [createHeaderRow()] raise a TypeError (they read a property of
    [this.data], which is null) and change nothing; [createTableBody]
    raises it as soon as the array it is given has a row, and answers an
    empty fragment for an empty array. *)
Theorem methods_need_data (w : World) :
  data (this w) = None →
  getSortedRows w = (Throw (TypeError "Cannot read properties of null"), w)
  ∧ createHeaderRow w = (Throw (TypeError "Cannot read properties of null"), w)
  ∧ (∀ a row rows, arrays w !! a = Some (row :: rows) →
       createTableBody a w
       = (Throw (TypeError "Cannot read properties of null"), w))
  ∧ (∀ a, arrays w !! a = Some [] → createTableBody a w = (Normal [], w)).
Proof.
  intros Hd. split_and!.
  - unfold getSortedRows, this_data, this_, bind, gets. simpl. by rewrite Hd.
  - unfold createHeaderRow, this_data, this_, bind, gets. simpl. by rewrite Hd.
  - intros a row rows Ha.
    unfold createTableBody, Array_items, bind, gets. simpl.
    rewrite Ha. simpl. unfold bind, this_data, this_, bind, gets. simpl.
    by rewrite Hd.
  - intros a Ha. unfold createTableBody, Array_items, bind, gets. simpl.
    by rewrite Ha.
Qed.

(** ** handleSort, again *)


(** X10.  A second click on the header that is the sort key undoes the
    first: when [key] is the current sort key, two calls of
    [handleSort(key)] leave the sort state as it was. *)
Theorem handleSort_twice (key : string) (w : World) :
  SortConfig.key (sortConfig (this w)) = key →
  sortConfig (this (handleSort key (handleSort key w).2).2)
  = sortConfig (this w).
Proof.
  intros Hkey. rewrite !handleSort_sortConfig. simpl.
  destruct (sortConfig (this w)) as [k dir]. simpl in *. subst k.
  destruct dir; repeat case_decide; simpl in *; try reflexivity;
    exfalso; intuition congruence.
Qed.

(** X11.  On a loaded renderer [handleSort(key)] raises nothing, logs
    nothing and re-renders from the data set it holds.  The data set stays
    loaded, and the body container, where it is found in the document
    afterwards, is left with one row per row of data as its only children:
    the rows of the data in an order that is a permutation of them, and
    that is sorted under the new sort state when the values at [key] are
    all numbers or all strings. *)
Theorem handleSort_loaded (key : string) (w : World) (d : Dataset.t)
    (rows : list Row) :
  loaded d rows w →
  ∃ w' sorted,
    handleSort key w = (Normal tt, w')
    ∧ loaded d rows w'
    ∧ console w' = console w
    ∧ sorted ≡ₚ rows
    ∧ (same_kind_at key rows = true → sorted_on (sortConfig (this w')) sorted)
    ∧ ∀ tag cls ls old after,
        document w !! bodyId (this w) = Some (Element tag cls ls old) →
        document w' !! bodyId (this w) = Some after →
        after = Element tag cls ls (map (bodyRow_of d) sorted).
Proof.
  intros [Hd Hrows]. rewrite handleSort_run.
  match goal with |- context [renderTable ?w0] =>
    assert (Hw0 : loaded d rows w0) by (split; [exact Hd|exact Hrows]);
    rewrite (renderTable_run w0 d rows Hw0);
    eexists _, (Array_sort (compareRows (sortConfig (this w0))) rows)
  end.
  split; [reflexivity|]. simpl. split_and!.
  - split; [exact Hd|]. simpl. by apply lookup_app_l_Some.
  - reflexivity.
  - apply Array_sort_Permutation.
  - exact (Array_sort_sorted_on (SortConfig.make key _) rows).
  - intros tag cls ls old after Hn Hafter.
    rewrite lookup_rendered, Hn in Hafter. simpl in Hafter.
    injection Hafter as <-. unfold render_node. simpl.
    repeat case_decide; try congruence; reflexivity.
Qed.

(** ** init, again *)

Lemma loaded_after_load (p : Payload.t) (w : World) :
  loaded
    (Dataset.make (Payload.title p) (Payload.columns p) (length (arrays w)))
    (Payload.rows p) (after_load p w).
Proof.
  split; [reflexivity|]. simpl. by rewrite lookup_app_r, Nat.sub_diag.
Qed.

Lemma init_after_success (w : World) (response : Response.t) (p : Payload.t) :
  network w (dataUrl (this w)) = Resolved response →
  Response.ok response = true →
  Response.body response = inr p →
  init w = (Normal true, (renderTable (after_load p w)).2).
Proof.
  intros Hnet Hok Hbody. unfold init, try_catch, bind.
  rewrite loadData_run, Hnet, Hok, Hbody.
  by rewrite (renderTable_run _ _ _ (loaded_after_load p w)).
Qed.

(** X12.  [init()] never rejects: it resolves to a boolean in every world.
    A rejected fetch, a status that is not ok and a body that does not
    parse all give false. *)
Theorem init_resolves (w : World) :
  ∃ b w',
    init w = (Normal b, w')
    ∧ (∀ e, network w (dataUrl (this w)) = Rejected e → b = false)
    ∧ (∀ response,
         network w (dataUrl (this w)) = Resolved response →
         Response.ok response = false → b = false)
    ∧ (∀ response e,
         network w (dataUrl (this w)) = Resolved response →
         Response.body response = inl e → b = false).
Proof.
  destruct (network w (dataUrl (this w))) as [e|response] eqn:Hnet.
  { eexists false, _. split; [|done].
    eapply init_after_failure.
    rewrite loadData_run, Hnet. apply loadData_catch_run. }
  destruct (Response.ok response) eqn:Hok.
  2:{ eexists false, _. split; [|done].
      eapply init_after_failure.
      rewrite loadData_run, Hnet, Hok. apply loadData_catch_run. }
  destruct (Response.body response) as [e|p] eqn:Hbody.
  { eexists false, _. split; [|done].
    eapply init_after_failure.
    rewrite loadData_run, Hnet, Hok, Hbody. apply loadData_catch_run. }
  eexists true, _. split.
  - by apply (init_after_success w response p).
  - split_and!; [done| |].
    + intros r [= <-]. congruence.
    + intros r e [= <-]. congruence.
Qed.

(** X13.  When the fetch resolves with an ok status and the body parses to
    a data set [p] (a title, columns and rows), [init()] resolves to true
    with that data set stored, keeps the sort state and logs nothing.  The
    body container, where it is found in the document afterwards, is left
    with one row per row of [p] as its only children: the rows of [p] in an
    order that is a permutation of them, and that is sorted under the sort
    state of the renderer when the values at its key are all numbers or all
    strings. *)
Theorem init_success (w : World) (response : Response.t) (p : Payload.t) :
  network w (dataUrl (this w)) = Resolved response →
  Response.ok response = true →
  Response.body response = inr p →
  ∃ d w' sorted,
    init w = (Normal true, w')
    ∧ loaded d (Payload.rows p) w'
    ∧ Dataset.title d = Payload.title p
    ∧ Dataset.columns d = Payload.columns p
    ∧ sortConfig (this w') = sortConfig (this w)
    ∧ console w' = console w
    ∧ sorted ≡ₚ Payload.rows p
    ∧ (same_kind_at (SortConfig.key (sortConfig (this w))) (Payload.rows p) = true →
       sorted_on (sortConfig (this w)) sorted)
    ∧ ∀ tag cls ls old after,
        document w !! bodyId (this w) = Some (Element tag cls ls old) →
        document w' !! bodyId (this w) = Some after →
        after = Element tag cls ls (map (bodyRow_of d) sorted).
Proof.
  intros Hnet Hok Hbody. rewrite (init_after_success w response p Hnet Hok Hbody).
  rewrite (renderTable_run _ _ _ (loaded_after_load p w)).
  exists (Dataset.make (Payload.title p) (Payload.columns p) (length (arrays w))).
  eexists _, (Array_sort (compareRows (sortConfig (this w))) (Payload.rows p)).
  split; [reflexivity|]. split.
  { split; [reflexivity|]. simpl.
    apply lookup_app_l_Some. by rewrite lookup_app_r, Nat.sub_diag. }
  simpl. split_and!; try reflexivity.
  - apply Array_sort_Permutation.
  - apply Array_sort_sorted_on.
  - intros tag cls ls old after Hn Hafter.
    rewrite lookup_rendered, Hn in Hafter. simpl in Hafter.
    injection Hafter as <-. unfold render_node. simpl.
    repeat case_decide; try congruence; reflexivity.
Qed.

(** ** loadData, again *)

(** X14.  Whatever makes [loadData()] fail, it logs one error to the
    console, and the error it logs is the cause: the error the fetch was
    rejected with, the error of the status that is not ok, or the error of
    the parse.  On a page with a title element it then raises that same
    cause, having set the text of the title; on a page without one it
    raises a TypeError instead and the document is untouched.  The arrays
    are as they were. *)
Theorem loadData_failure_logged (w w' : World) (e : JsError) :
  loadData w = (Throw e, w') →
  ∃ cause,
    console w' = console w ++ [ConsoleError "Error loading leaderboard data:" (Some cause)]
    ∧ (∀ c, network w (dataUrl (this w)) = Rejected c → cause = c)
    ∧ (∀ response, network w (dataUrl (this w)) = Resolved response →
         Response.ok response = false →
         cause = Error (failed_to_load response))
    ∧ (∀ response c, network w (dataUrl (this w)) = Resolved response →
         Response.ok response = true → Response.body response = inl c →
         cause = c)
    ∧ (is_Some (document w !! titleId (this w)) →
       e = cause
       ∧ textContent <$> document w' !! titleId (this w)
         = Some "Error loading leaderboard data")
    ∧ (document w !! titleId (this w) = None →
       e = TypeError "Cannot set properties of null"
       ∧ document w' = document w)
    ∧ arrays w' = arrays w.
Proof.
  rewrite loadData_run.
  assert (Hc : ∀ cause, loadData_catch cause w = (Throw e, w') →
    console w' = console w ++ [ConsoleError "Error loading leaderboard data:" (Some cause)]
    ∧ (is_Some (document w !! titleId (this w)) →
       e = cause
       ∧ textContent <$> document w' !! titleId (this w)
         = Some "Error loading leaderboard data")
    ∧ (document w !! titleId (this w) = None →
       e = TypeError "Cannot set properties of null"
       ∧ document w' = document w)
    ∧ arrays w' = arrays w).
  { intros cause. rewrite loadData_catch_run. intros [= <- <-].
    unfold after_catch.
    destruct (document w !! titleId (this w)) as [n|] eqn:Hn; simpl.
    - split_and!; try done. intros _. split; [done|].
      rewrite lookup_alter_eq, Hn. simpl.
      by rewrite textContent_set_textContent.
    - split_and!; try done. }
  destruct (network w (dataUrl (this w))) as [c|response].
  { intros H. exists c. destruct (Hc c H) as (? & ? & ? & ?).
    split_and!; first [done | intros; simplify_eq; first [done|congruence]]. }
  destruct (Response.ok response) eqn:Hok.
  2:{ intros H. exists (Error (failed_to_load response)).
      destruct (Hc _ H) as (? & ? & ? & ?).
      split_and!; first [done | intros; simplify_eq; first [done|congruence]]. }
  destruct (Response.body response) as [c|p] eqn:Hbody; [|done].
  intros H. exists c. destruct (Hc c H) as (? & ? & ? & ?).
  split_and!; first [done | intros; simplify_eq; first [done|congruence]].
Qed.

(** ** The page-ready handler *)

Lemma init_never_throws (w : World) : ∃ b w', init w = (Normal b, w').
Proof.
  unfold init, try_catch.
  match goal with |- context [match ?m with _ => _ end] =>
    destruct m as [[b|e] w1]
  end; do 2 eexists; reflexivity.
Qed.

Lemma init_not_ok (w : World) (response : Response.t) :
  network w (dataUrl (this w)) = Resolved response →
  Response.ok response = false →
  ∃ e w1,
    init w =
      (Normal false,
       set_console
         (console w1 ++ [ConsoleError "Failed to initialize leaderboard:" (Some e)])
         w1).
Proof.
  intros Hnet Hok. do 2 eexists. eapply init_after_failure.
  rewrite loadData_run, Hnet, Hok. apply loadData_catch_run.
Qed.

(** X15.  The page-ready handler never takes its [catch] branch, because
    [init()] never rejects: whatever the fetch does, the last line it
    leaves on the console is "Leaderboard initialized successfully".  That
    is so also when the status is not ok, where the line before it is the
    error "Failed to initialize leaderboard:". *)
Theorem DOMContentLoaded_logs_success (w0 : World) :
  ∃ w',
    DOMContentLoaded w0
    = (map ErrorLine (console w')
       ++ [LogLine "Leaderboard initialized successfully"], w')
    ∧ (∀ response,
         network w0 "static/json/leaderboard-data.json" = Resolved response →
         Response.ok response = false →
         ∃ e, last (console w')
              = Some (ConsoleError "Failed to initialize leaderboard:" (Some e))).
Proof.
  unfold DOMContentLoaded. cbv zeta.
  match goal with |- context [init ?w] =>
    destruct (init_never_throws w) as (b & w' & Hrun);
    pose proof (init_not_ok w) as Hfail; rewrite Hrun in *
  end.
  exists w'. split; [reflexivity|].
  intros response Hnet Hok.
  destruct (Hfail response Hnet Hok) as (e & w1 & [= _ ->]).
  exists e. simpl. apply last_snoc.
Qed.

End Leaderboard.

(** * Demonstrations on the sample page *)

(** C1 on a column of numbers. *)
Lemma getSortedRows_sorted_witness :
  same_kind_at "average" (Payload.rows sample_payload) = true
  ∧ ∃ result sorted w',
      getSortedRows sample_StringToNumber
        (loaded_world sample_payload (SortConfig.make "average" asc))
      = (Normal result, w')
      ∧ arrays w' !! result = Some sorted
      ∧ ∀ i j a b, (i < j)%nat →
          sorted !! i = Some a → sorted !! j = Some b →
          js_le sample_StringToNumber (prop a "average") (prop b "average") = true.
Proof.
  split; [reflexivity|].
  exact (getSortedRows_sorted sample_StringToNumber
           (loaded_world sample_payload (SortConfig.make "average" asc))
           (Dataset.make "Model Leaderboard" sample_columns 0)
           (Payload.rows sample_payload) eq_refl eq_refl eq_refl).
Defined.

(** C1 as stated fails as soon as the values at the sort key are not all
    of one kind.  With a row that has no score, sorted ascending, ModelA (2)
    still stands before ModelC (1); with a score served as the text "N/A",
    sorted descending as the renderer starts, ModelA (1) still stands before
    ModelC (2).  In both the comparator answers 0 whenever it meets the odd
    row, so nothing moves. *)
Lemma getSortedRows_unsorted_counterexample :
  let gappy := loaded_world gappy_payload (SortConfig.make "average" asc) in
  let mixed := loaded_world mixed_payload (SortConfig.make "average" desc) in
  ((getSortedRows sample_StringToNumber gappy).1 = Normal 1%nat
   ∧ arrays (getSortedRows sample_StringToNumber gappy).2 !! 1%nat
     = Some [scored "ModelA" (2 # 1); unscored "ModelB"; scored "ModelC" (1 # 1)]
   ∧ js_le sample_StringToNumber
       (prop (scored "ModelA" (2 # 1)) "average")
       (prop (scored "ModelC" (1 # 1)) "average") = false)
  ∧ ((getSortedRows sample_StringToNumber mixed).1 = Normal 1%nat
     ∧ arrays (getSortedRows sample_StringToNumber mixed).2 !! 1%nat
       = Some [scored "ModelA" (1 # 1); not_available "ModelB";
               scored "ModelC" (2 # 1)]
     ∧ js_ge sample_StringToNumber
         (prop (scored "ModelA" (1 # 1)) "average")
         (prop (scored "ModelC" (2 # 1)) "average") = false).
Proof. cbv zeta. repeat split; vm_compute; reflexivity. Qed.

(** C2 on the sample data. *)
Lemma getSortedRows_permutation_witness :
  ∃ result sorted w',
    getSortedRows sample_StringToNumber
      (loaded_world gappy_payload (SortConfig.make "average" desc))
    = (Normal result, w')
    ∧ arrays w' !! result = Some sorted
    ∧ sorted ≡ₚ Payload.rows gappy_payload
    ∧ arrays w' !! 0%nat = Some (Payload.rows gappy_payload).
Proof.
  destruct (getSortedRows_permutation sample_StringToNumber
              (loaded_world gappy_payload (SortConfig.make "average" desc))
              (Dataset.make "Model Leaderboard" sample_columns 0)
              (Payload.rows gappy_payload) eq_refl eq_refl)
    as (result & sorted & w' & Hrun & Hres & _ & _ & Hperm & _ & Hold & _).
  exists result, sorted, w'. done.
Defined.

(** C4 on the sample page. *)
Lemma init_not_found_witness :
  ∃ w',
    init sample_StringToNumber sample_NumberToString (fresh_world sample_page not_found)
    = (Normal false, w')
    ∧ textContent <$> document w' !! "table-title"
      = Some "Error loading leaderboard data"
    ∧ ∀ after, document w' !! "table-body" = Some after → childNodes_of after = [].
Proof.
  destruct (init_not_found sample_StringToNumber sample_NumberToString
              (fresh_world sample_page not_found)
              (Response.make 404 "Not Found"
                 (inl (SyntaxError "Unexpected token < in JSON")))
              eq_refl eq_refl (ex_intro _ (createElement "h2") eq_refl))
    as (w' & Hrun & Htitle & _ & Hbody & _).
  exists w'. split; [exact Hrun|]. split; [exact Htitle|].
  assert (Hne : "table-body" ≠ "table-title") by discriminate.
  intros after. exact (Hbody Hne (createElement "tbody") after eq_refl eq_refl).
Defined.

(** C4 as stated fails on the text of the title: after the 404 it is the
    fixed message, in which "404" does not occur (it occurs in the message
    of the error). *)
Lemma init_not_found_title_counterexample :
  let w := fresh_world sample_page not_found in
  (init sample_StringToNumber sample_NumberToString w).1 = Normal false
  ∧ textContent <$>
      document (init sample_StringToNumber sample_NumberToString w).2 !! "table-title"
    = Some "Error loading leaderboard data"
  ∧ includes "Error loading leaderboard data" "404" = false
  ∧ includes "Failed to load data: 404 Not Found" "404" = true.
Proof. cbv zeta. repeat split; vm_compute; reflexivity. Qed.


(** C5 fails on a page without the title element, by the defect of C8.
    The status is 404; [loadData()] does not fail with the error that
    carries the status and the status text but with the TypeError of its
    own [catch] block, and no error message is written anywhere in the
    document.  The error with the status only reaches the console. *)
Lemma loadData_not_found_without_title :
  let w := fresh_world page_without_title not_found in
  let w' := (loadData sample_NumberToString w).2 in
  document w !! titleId (this w) = None
  ∧ network w (dataUrl (this w))
    = Resolved (Response.make 404 "Not Found"
                  (inl (SyntaxError "Unexpected token < in JSON")))
  ∧ (loadData sample_NumberToString w).1
    = Throw (TypeError "Cannot set properties of null")
  ∧ (loadData sample_NumberToString w).1
    ≠ Throw (Error "Failed to load data: 404 Not Found")
  ∧ document w' = document w
  ∧ console w'
    = [ConsoleError "Error loading leaderboard data:"
         (Some (Error "Failed to load data: 404 Not Found"))].
Proof. cbv zeta. repeat split; vm_compute; (reflexivity || discriminate). Qed.

(** C6 on the sample page, before anything is loaded. *)
Lemma renderTable_unset_witness :
  data (this (fresh_world sample_page not_found)) = None
  ∧ ∃ w',
      renderTable sample_StringToNumber sample_NumberToString
        (fresh_world sample_page not_found)
      = (Normal tt, w')
      ∧ document w' = sample_page.
Proof.
  split; [reflexivity|].
  destruct (renderTable_unset sample_StringToNumber sample_NumberToString
              (fresh_world sample_page not_found) eq_refl)
    as (w' & Hrun & _ & Hdoc & _).
  exists w'. split; [exact Hrun|exact Hdoc].
Defined.

(** C7 on the sample data: the row of ModelB has no score, and its second
    cell is empty; its first cell shows the method. *)
Lemma createTableBody_cells_witness :
  ∃ fragment tr method average,
    createTableBody sample_NumberToString 0
      (loaded_world gappy_payload (SortConfig.make "average" desc))
    = (Normal fragment,
       loaded_world gappy_payload (SortConfig.make "average" desc))
    ∧ fragment !! 1%nat = Some tr
    ∧ childNodes_of tr !! 0%nat = Some method
    ∧ textContent method = "ModelB"
    ∧ childNodes_of tr !! 1%nat = Some average
    ∧ textContent average = "".
Proof.
  destruct (createTableBody_cells sample_NumberToString
              (loaded_world gappy_payload (SortConfig.make "average" desc))
              (Dataset.make "Model Leaderboard" sample_columns 0) 0
              (Payload.rows gappy_payload) eq_refl eq_refl)
    as (fragment & Hrun & _ & Hcells).
  destruct (Hcells 1%nat (unscored "ModelB") eq_refl) as (tr & Htr & _ & Htds).
  destruct (Htds 0%nat (Column.make "method" "Method" false false) eq_refl)
    as (method & Hmethod & Hstring & _).
  destruct (Htds 1%nat (Column.make "average" "Average" true true) eq_refl)
    as (average & Haverage & _ & _ & Hempty & _).
  exists fragment, tr, method, average.
  split; [exact Hrun|]. split; [exact Htr|].
  split; [exact Hmethod|]. split; [exact (Hstring "ModelB" eq_refl)|].
  split; [exact Haverage|]. exact (Hempty eq_refl eq_refl).
Defined.

(** C7 as stated fails on a column whose id names an inherited property.
    The row of ModelA has no property "constructor" of its own, and its
    cell in the column "constructor" is not empty: it shows the function
    [Object], which the row inherits. *)
Lemma createTableBody_inherited_counterexample :
  let w := loaded_world inherited_payload (SortConfig.make "average" desc) in
  let cell (i j : nat) : option string :=
    match (createTableBody sample_NumberToString 0 w).1 with
    | Normal fragment =>
        tr ← fragment !! i; td ← childNodes_of tr !! j; Some (textContent td)
    | Throw _ => None
    end in
  Payload.rows inherited_payload !! 0%nat = Some (unscored "ModelA")
  ∧ Column.id <$> Payload.columns inherited_payload !! 1%nat = Some "constructor"
  ∧ unscored "ModelA" !! "constructor" = None
  ∧ cell 0%nat 1%nat = Some "function Object() { [native code] }"
  ∧ cell 0%nat 1%nat ≠ Some "".
Proof. cbv zeta. repeat split; vm_compute; (reflexivity || discriminate). Qed.

(** C8 fails in [loadData]: on a page without the title element the
    [catch] block raises a TypeError of its own, and the error of the
    failed load is lost. *)
Lemma loadData_without_title_element :
  let w := fresh_world page_without_title not_found in
  document w !! titleId (this w) = None
  ∧ (loadData sample_NumberToString w).1
    = Throw (TypeError "Cannot set properties of null")
  ∧ (init sample_StringToNumber sample_NumberToString w).1 = Normal false.
Proof. cbv zeta. repeat split; vm_compute; reflexivity. Qed.

(** C9 on the sample page. *)
Lemma handleSort_unset_witness :
  ∃ w',
    handleSort sample_StringToNumber sample_NumberToString "method"
      (fresh_world sample_page not_found)
    = (Normal tt, w')
    ∧ document w' = sample_page
    ∧ data (this w') = None.
Proof.
  destruct (handleSort_unset sample_StringToNumber sample_NumberToString "method"
              (fresh_world sample_page not_found) eq_refl)
    as (w' & Hrun & Hdoc & _ & Hdata & _).
  exists w'. split; [exact Hrun|]. split; [exact Hdoc|exact Hdata].
Defined.

(** C9 as stated fails on the instance itself: with no data set loaded,
    [handleSort("method")] still replaces the sort state. *)
Lemma handleSort_unset_counterexample :
  let w := fresh_world sample_page not_found in
  let w' := (handleSort sample_StringToNumber sample_NumberToString "method" w).2 in
  data (this w) = None
  ∧ sortConfig (this w) = SortConfig.make "average" desc
  ∧ sortConfig (this w') = SortConfig.make "method" asc
  ∧ this w' ≠ this w.
Proof. vm_compute. split_and!; try done. Qed.

(** C10 on the sample page: a failed load leaves the data set unset. *)
Lemma loadData_failure_keeps_data_witness :
  data (this (loadData sample_NumberToString (fresh_world sample_page not_found)).2)
  = None.
Proof.
  exact (loadData_failure_keeps_data sample_NumberToString
           (fresh_world sample_page not_found)
           (loadData sample_NumberToString (fresh_world sample_page not_found)).2
           (Error "Failed to load data: 404 Not Found") eq_refl).
Defined.

(** * More demonstrations on the sample page *)

(** X1 on a page without the title element. *)
Lemma renderTable_loaded_witness :
  ∃ w',
    renderTable sample_StringToNumber sample_NumberToString
      (set_document page_without_title
         (loaded_world sample_payload (SortConfig.make "average" desc)))
    = (Normal tt, w')
    ∧ document w' !! "table-title" = None
    ∧ console w' = [].
Proof.
  destruct (renderTable_loaded sample_StringToNumber sample_NumberToString
              (set_document page_without_title
                 (loaded_world sample_payload (SortConfig.make "average" desc)))
              (Dataset.make "Model Leaderboard" sample_columns 0)
              (Payload.rows sample_payload) (conj eq_refl eq_refl))
    as (w' & Hrun & _ & Hconsole & Hdom & _).
  exists w'. split; [exact Hrun|]. split; [|exact Hconsole].
  exact (Hdom "table-title" eq_refl).
Defined.

(** X2 on the sample page: a column of numbers, sorted descending. *)
Lemma renderTable_shows_witness :
  ∃ w' sorted,
    renderTable sample_StringToNumber sample_NumberToString
      (loaded_world sample_payload (SortConfig.make "average" desc))
    = (Normal tt, w')
    ∧ sorted ≡ₚ Payload.rows sample_payload
    ∧ sorted_on sample_StringToNumber (SortConfig.make "average" desc) sorted
    ∧ (∀ after, document w' !! "table-title" = Some after →
         textContent after = "Model Leaderboard")
    ∧ (∀ after, document w' !! "table-body" = Some after →
         after = Element "tbody" "" []
                   (map (bodyRow_of sample_NumberToString
                           (Dataset.make "Model Leaderboard" sample_columns 0))
                      sorted)).
Proof.
  destruct (renderTable_shows sample_StringToNumber sample_NumberToString
              (loaded_world sample_payload (SortConfig.make "average" desc))
              (Dataset.make "Model Leaderboard" sample_columns 0)
              (Payload.rows sample_payload) (conj eq_refl eq_refl))
    as (w' & sorted & Hrun & Hperm & Hsorted & Htitle & _ & Hbody).
  exists w', sorted. split; [exact Hrun|]. split; [exact Hperm|].
  split; [exact (Hsorted eq_refl)|].
  assert (Hth : "table-title" ≠ "table-head") by discriminate.
  assert (Htb : "table-title" ≠ "table-body") by discriminate.
  split; [exact (Htitle Hth Htb)|].
  intros after. exact (Hbody "tbody" "" [] [] after eq_refl).
Defined.

(** X3 on the sample page. *)
Lemma renderTable_idempotent_witness :
  ∃ w1 w2,
    renderTable sample_StringToNumber sample_NumberToString
      (loaded_world sample_payload (SortConfig.make "average" desc))
    = (Normal tt, w1)
    ∧ renderTable sample_StringToNumber sample_NumberToString w1 = (Normal tt, w2)
    ∧ document w2 = document w1
    ∧ this w2 = this w1
    ∧ console w2 = console w1.
Proof.
  exact (renderTable_idempotent sample_StringToNumber sample_NumberToString
           (loaded_world sample_payload (SortConfig.make "average" desc))
           (Dataset.make "Model Leaderboard" sample_columns 0)
           (Payload.rows sample_payload) (conj eq_refl eq_refl)).
Defined.

(** X4 on the sample data: the header of the sortable column "average". *)
Lemma createHeaderRow_cells_witness :
  ∃ tr th,
    createHeaderRow sample_NumberToString
      (loaded_world sample_payload (SortConfig.make "average" desc))
    = (Normal tr, loaded_world sample_payload (SortConfig.make "average" desc))
    ∧ childNodes_of tr !! 1%nat = Some th
    ∧ textContent th = "Average"
    ∧ listeners_of th = [ClickHandleSort "average"].
Proof.
  destruct (createHeaderRow_cells sample_NumberToString
              (loaded_world sample_payload (SortConfig.make "average" desc))
              (Dataset.make "Model Leaderboard" sample_columns 0) eq_refl)
    as (tr & Hrun & _ & Hcells).
  destruct (Hcells 1%nat (Column.make "average" "Average" true true) eq_refl)
    as (th & Hth & Htext & Hls).
  exists tr, th. split; [exact Hrun|]. split; [exact Hth|].
  split; [exact Htext|exact Hls].
Defined.

(** X5 on the sample data: the column "average" is the sort key. *)
Lemma createHeaderRow_classes_witness :
  ∃ tr th,
    createHeaderRow sample_NumberToString
      (loaded_world sample_payload (SortConfig.make "average" desc))
    = (Normal tr, loaded_world sample_payload (SortConfig.make "average" desc))
    ∧ childNodes_of tr !! 1%nat = Some th
    ∧ "sorted-desc" ∈ class_tokens (className_of th).
Proof.
  destruct (createHeaderRow_classes sample_NumberToString
              (loaded_world sample_payload (SortConfig.make "average" desc))
              (Dataset.make "Model Leaderboard" sample_columns 0) eq_refl)
    as (tr & Hrun & Hcells).
  destruct (Hcells 1%nat (Column.make "average" "Average" true true) eq_refl)
    as (th & Hth & _ & _ & Hdesc & _).
  exists tr, th. split; [exact Hrun|]. split; [exact Hth|].
  apply Hdesc. split; [reflexivity|]. split; reflexivity.
Defined.

(** X6 on the sample data. *)
Lemma createTableBody_classes_witness :
  ∃ fragment tr td,
    createTableBody sample_NumberToString 0
      (loaded_world sample_payload (SortConfig.make "average" desc))
    = (Normal fragment,
       loaded_world sample_payload (SortConfig.make "average" desc))
    ∧ fragment !! 0%nat = Some tr
    ∧ childNodes_of tr !! 0%nat = Some td
    ∧ "method-column" ∈ class_tokens (className_of td).
Proof.
  destruct (createTableBody_classes sample_NumberToString
              (loaded_world sample_payload (SortConfig.make "average" desc))
              (Dataset.make "Model Leaderboard" sample_columns 0) 0
              (Payload.rows sample_payload) eq_refl eq_refl)
    as (fragment & Hrun & Hrows).
  destruct (Hrows 0%nat (scored "ModelA" (2 # 1)) eq_refl) as (tr & Htr & Hcells).
  destruct (Hcells 0%nat (Column.make "method" "Method" false false) eq_refl)
    as (td & Htd & Hmethod & _).
  exists fragment, tr, td. split; [exact Hrun|]. split; [exact Htr|].
  split; [exact Htd|]. apply Hmethod. reflexivity.
Defined.

(** X7 on the sample data, sorted on a key no row has. *)
Lemma getSortedRows_missing_key_witness :
  ∃ result w',
    getSortedRows sample_StringToNumber
      (loaded_world sample_payload (SortConfig.make "score" asc))
    = (Normal result, w')
    ∧ arrays w' !! result = Some (Payload.rows sample_payload).
Proof.
  apply (getSortedRows_missing_key sample_StringToNumber
           (loaded_world sample_payload (SortConfig.make "score" asc))
           (Dataset.make "Model Leaderboard" sample_columns 0)
           (Payload.rows sample_payload) (conj eq_refl eq_refl)).
  repeat constructor.
Defined.

(** X8 on the sample page, before anything is loaded. *)
Lemma methods_need_data_witness :
  getSortedRows sample_StringToNumber (fresh_world sample_page not_found)
  = (Throw (TypeError "Cannot read properties of null"),
     fresh_world sample_page not_found).
Proof.
  exact (proj1 (methods_need_data sample_StringToNumber sample_NumberToString
                  (fresh_world sample_page not_found) eq_refl)).
Defined.

(** X10 on the sample page. *)
Lemma handleSort_twice_witness :
  sortConfig
    (this (handleSort sample_StringToNumber sample_NumberToString "average"
             (handleSort sample_StringToNumber sample_NumberToString "average"
                (fresh_world sample_page not_found)).2).2)
  = SortConfig.make "average" desc.
Proof.
  exact (handleSort_twice sample_StringToNumber sample_NumberToString "average"
           (fresh_world sample_page not_found) eq_refl).
Defined.

(** X11 on the sample page: a click on the header of the column of
    methods, a column of strings. *)
Lemma handleSort_loaded_witness :
  ∃ w' sorted,
    handleSort sample_StringToNumber sample_NumberToString "method"
      (loaded_world sample_payload (SortConfig.make "average" desc))
    = (Normal tt, w')
    ∧ loaded (Dataset.make "Model Leaderboard" sample_columns 0)
        (Payload.rows sample_payload) w'
    ∧ console w' = []
    ∧ sorted ≡ₚ Payload.rows sample_payload
    ∧ sorted_on sample_StringToNumber (sortConfig (this w')) sorted.
Proof.
  destruct (handleSort_loaded sample_StringToNumber sample_NumberToString "method"
              (loaded_world sample_payload (SortConfig.make "average" desc))
              (Dataset.make "Model Leaderboard" sample_columns 0)
              (Payload.rows sample_payload) (conj eq_refl eq_refl))
    as (w' & sorted & Hrun & Hloaded & Hconsole & Hperm & Hsorted & _).
  exists w', sorted. split; [exact Hrun|]. split; [exact Hloaded|].
  split; [exact Hconsole|]. split; [exact Hperm|exact (Hsorted eq_refl)].
Defined.

(** X13 on the sample page. *)
Lemma init_success_witness :
  ∃ d w' sorted,
    init sample_StringToNumber sample_NumberToString
      (fresh_world sample_page (serves sample_payload))
    = (Normal true, w')
    ∧ loaded d (Payload.rows sample_payload) w'
    ∧ console w' = []
    ∧ sorted ≡ₚ Payload.rows sample_payload
    ∧ sorted_on sample_StringToNumber (SortConfig.make "average" desc) sorted.
Proof.
  destruct (init_success sample_StringToNumber sample_NumberToString
              (fresh_world sample_page (serves sample_payload))
              (Response.make 200 "OK" (inr sample_payload)) sample_payload
              eq_refl eq_refl eq_refl)
    as (d & w' & sorted & Hrun & Hloaded & _ & _ & _ & Hconsole & Hperm
        & Hsorted & _).
  exists d, w', sorted. split; [exact Hrun|]. split; [exact Hloaded|].
  split; [exact Hconsole|]. split; [exact Hperm|exact (Hsorted eq_refl)].
Defined.

(** X14 on the sample page: a 404. *)
Lemma loadData_failure_logged_witness :
  ∃ cause,
    console (loadData sample_NumberToString (fresh_world sample_page not_found)).2
    = [ConsoleError "Error loading leaderboard data:" (Some cause)]
    ∧ cause = Error "Failed to load data: 404 Not Found".
Proof.
  destruct (loadData_failure_logged sample_NumberToString
              (fresh_world sample_page not_found)
              (loadData sample_NumberToString (fresh_world sample_page not_found)).2
              (Error "Failed to load data: 404 Not Found") eq_refl)
    as (cause & Hconsole & _ & Hstatus & _).
  exists cause. split; [exact Hconsole|].
  exact (Hstatus _ eq_refl eq_refl).
Defined.
